(** * Order status propagation on the client: vendor queue, tracker, checkout, QR scanner

    A shallow embedding of the order-status logic of the front end:
    - [OrderQueue]  : src/Frontend/src/components/vendor/OrderCard.tsx
                      (the file holds both the OrderCard and the OrderQueue component),
    - [OrderTrackingPage] : the customer tracker,
    - [CheckoutPage] : src/Frontend/src/pages/CheckoutPage.tsx,
    - [QRCodeScanner] : src/Frontend/src/components/vendor/QRCodeScanner.tsx.

    React state is modelled by explicit state passing; the asynchronous
    status handler is a step function over events of the event loop. *)

From Stdlib Require Import ZArith List String Bool Lia Permutation Sorted SpecFloat.
From stdpp Require Import base list strings gmap.
Import ListNotations.
Local Open Scope string_scope.
Local Open Scope list_scope.
Local Open Scope Z_scope.

(** ** JavaScript array primitives used by the components *)

Module Js.
Section ArrayPrototype.
Context {A : Type}.

(** [Array.prototype.findIndex]: the first index whose element satisfies
    the predicate; [None] stands for the result -1. *)
Fixpoint findIndex (p : A -> bool) (l : list A) : option nat :=
  match l with
  | [] => None
  | x :: rest => if p x then Some 0%nat else option_map S (findIndex p rest)
  end.

(** [Array.prototype.sort(comparefn)].  ECMAScript requires the sort to be
    stable and fixes the result when [comparefn] is a consistent
    comparison; otherwise the order is left to the engine, which returns
    some permutation of the array.  The model is one conforming
    implementation, a stable insertion sort: elements are taken left to
    right and each one moves left past the elements that compare strictly
    greater.  The sorted prefix is kept in reverse, so that its last
    element is at the head.  Under a comparator that is not consistent, as
    the one of [sortOrders] is on lists of mixed statuses, an engine may
    return another permutation than this one.  The properties of the
    queue below use of a sort that it returns a permutation; where the
    order of a list matters they take it as a hypothesis or are on lists
    on which the comparator is consistent or answers 0 for every pair. *)
Variable comparefn : A -> A -> Z.

Fixpoint insert_back (item : A) (rprefix : list A) : list A :=
  match rprefix with
  | [] => [item]
  | prev :: rest =>
      if 0 <? comparefn prev item
      then prev :: insert_back item rest
      else item :: rprefix
  end.

Definition sort (l : list A) : list A :=
  rev (fold_left (fun rprefix item => insert_back item rprefix) l []).

(** A reversed prefix in which no element is strictly greater than its
    successor in the array: the state in which [insert_back] leaves it. *)
Fixpoint settled (rprefix : list A) : Prop :=
  match rprefix with
  | [] => True
  | x :: rest =>
      match rest with
      | [] => True
      | y :: _ => (0 <? comparefn y x) = false
      end /\ settled rest
  end.

End ArrayPrototype.
End Js.

(** ** The order record and its status *)

Inductive Status : Type :=
  | PLACED
  | PREPARING
  | READY_FOR_PICKUP
  | COMPLETED
  | REJECTED.

Definition Status_eqb (a b : Status) : bool :=
  match a, b with
  | PLACED, PLACED
  | PREPARING, PREPARING
  | READY_FOR_PICKUP, READY_FOR_PICKUP
  | COMPLETED, COMPLETED
  | REJECTED, REJECTED => true
  | _, _ => false
  end.

(** The legal edges of the order life cycle, as the specification lists
    them: PLACED to PREPARING, PLACED to REJECTED, PREPARING to
    READY_FOR_PICKUP, READY_FOR_PICKUP to COMPLETED. *)
Definition legal_edge (s t : Status) : bool :=
  match s, t with
  | PLACED, PREPARING
  | PLACED, REJECTED
  | PREPARING, READY_FOR_PICKUP
  | READY_FOR_PICKUP, COMPLETED => true
  | _, _ => false
  end.

Record OrderItem : Type := mkOrderItem {
  productId : string;
  productName : string;
  priceAtOrder : Z;
  quantity : Z;
  imageUrl : string;
  isVeg : bool
}.

(** [interface Order] of OrderQueue.  [orderTime] holds the value of
    [new Date(order.orderTime).getTime()], milliseconds since the epoch. *)
Record Order : Type := mkOrder {
  id : string;
  orderId : string;
  customerEmail : string;
  customerName : string;
  customerPhone : string;
  items : list OrderItem;
  totalAmount : Z;
  status : Status;
  orderTime : Z;
  estimatedPickupTime : string;
  vendorId : string;
  shopId : string;
  shopName : string;
  vendorName : string;
  shopAddress : string
}.

(** [{ ...order, status: newStatus }] *)
Definition with_status (order : Order) (newStatus : Status) : Order :=
  mkOrder (id order) (orderId order) (customerEmail order) (customerName order)
    (customerPhone order) (items order) (totalAmount order) newStatus
    (orderTime order) (estimatedPickupTime order) (vendorId order)
    (shopId order) (shopName order) (vendorName order) (shopAddress order).

(** Toast variants and the argument triple of a status-change callback. *)
Inductive Variant : Type := variant_default | variant_destructive | variant_success.

Record StatusChange : Type := mkStatusChange {
  orderCustomId : string;
  currentOrderStatus : Status;
  newStatus : Status
}.

(** ** OrderCard: the stand-alone card component *)

Module OrderCard.

Inductive Callback : Type := onAccept | onReject | onReady | onComplete.

(** The buttons rendered for an order and the call each one makes. *)
Definition actions (order : Order) : list (Callback * StatusChange) :=
  (if Status_eqb (status order) PLACED
   then [ (onAccept, mkStatusChange (id order) (status order) PREPARING);
          (onReject, mkStatusChange (id order) (status order) REJECTED) ]
   else []) ++
  (if Status_eqb (status order) PREPARING
   then [ (onReady, mkStatusChange (id order) (status order) READY_FOR_PICKUP) ]
   else []) ++
  (if Status_eqb (status order) READY_FOR_PICKUP
   then [ (onComplete, mkStatusChange (id order) (status order) COMPLETED) ]
   else []).

(** A transition from [s] to [t] can be requested for [order]: one of the
    buttons of its card makes that call. *)
Definition requestable (order : Order) (s t : Status) : Prop :=
  exists cb c, In (cb, c) (actions order) /\
               currentOrderStatus c = s /\ newStatus c = t.

End OrderCard.

(** ** OrderQueue: the vendor queue component *)

Module OrderQueue.

(** The comparator handed to [sort] by [sortOrders]. *)
Definition compareOrders (a b : Order) : Z :=
  if Status_eqb (status a) PLACED && Status_eqb (status b) PLACED
  then orderTime b - orderTime a
  else 0.

Definition sortOrders (ordersArray : list Order) : list Order :=
  Js.sort compareOrders ordersArray.

(** [fetchInitialOrders]: the state after the snapshot response. *)
Definition fetchInitialOrders (responseData : list Order) : list Order :=
  sortOrders (map (fun order => with_status order (status order)) responseData).

(** The four display sections. *)
Definition pendingOrders (orders : list Order) : list Order :=
  List.filter (fun order => Status_eqb (status order) PLACED) orders.

Definition preparingOrders (orders : list Order) : list Order :=
  List.filter (fun order => Status_eqb (status order) PREPARING) orders.

Definition readyOrders (orders : list Order) : list Order :=
  List.filter (fun order => Status_eqb (status order) READY_FOR_PICKUP) orders.

Definition historicalOrders (orders : list Order) : list Order :=
  List.filter (fun order => Status_eqb (status order) COMPLETED
                            || Status_eqb (status order) REJECTED) orders.

(** The calls to [handleStatusChange] wired to the buttons of a card, per
    section.  The reject button passes [order.id], the others
    [order.orderId]. *)
Definition pendingActions (order : Order) : list StatusChange :=
  [ mkStatusChange (orderId order) (status order) PREPARING;
    mkStatusChange (id order) (status order) REJECTED ].

Definition preparingActions (order : Order) : list StatusChange :=
  [ mkStatusChange (orderId order) (status order) READY_FOR_PICKUP ].

Definition readyActions (order : Order) : list StatusChange :=
  [ mkStatusChange (orderId order) (status order) COMPLETED ].

(** The rendered cards, section after section, each with its actions. *)
Definition render (orders : list Order) : list (Order * list StatusChange) :=
  map (fun order => (order, pendingActions order)) (pendingOrders orders) ++
  map (fun order => (order, preparingActions order)) (preparingOrders orders) ++
  map (fun order => (order, readyActions order)) (readyOrders orders) ++
  map (fun order => (order, [])) (historicalOrders orders).

(** A transition from [s] to [t] can be requested for [order]: one of the
    buttons rendered on its card makes that call. *)
Definition requestable (orders : list Order) (order : Order) (s t : Status) : Prop :=
  exists calls c, In (order, calls) (render orders) /\ In c calls /\
                  currentOrderStatus c = s /\ newStatus c = t.

(** Observable effects of the component. *)
Inductive Effect : Type :=
  | AxiosPut (pathOrderId : string) (bodyNewStatus : Status) (bodyVendorId : string)
  | StompPublish (destination : string) (bodyOrderId : string)
                 (bodyNewStatus : Status) (bodyVendorId : string)
  | Toast (title : string) (variant : Variant)
  | ConsoleError.

(** A handler suspended at [await axios.put(...)]: what its continuation
    closes over. *)
Record Pending : Type := mkPending {
  prevOrdersState : list Order;
  change : StatusChange
}.

(** The component: its React state [orders], the value of [orders] in the
    latest render (the one the handlers and buttons on screen close over),
    the props it reads, the handlers awaiting a response and the effects
    emitted so far. *)
Record State : Type := mkState {
  orders : list Order;
  rendered : list Order;
  stompConnected : bool;
  vendorIdProp : string;
  awaiting : list Pending;
  effects : list Effect
}.

Definition setOrders (f : list Order -> list Order) (st : State) : State :=
  mkState (f (orders st)) (rendered st) (stompConnected st) (vendorIdProp st)
    (awaiting st) (effects st).

Definition emit (es : list Effect) (st : State) : State :=
  mkState (orders st) (rendered st) (stompConnected st) (vendorIdProp st)
    (awaiting st) (effects st ++ es).

Definition setAwaiting (ps : list Pending) (st : State) : State :=
  mkState (orders st) (rendered st) (stompConnected st) (vendorIdProp st)
    ps (effects st).

Definition setConnected (up : bool) (st : State) : State :=
  mkState (orders st) (rendered st) up (vendorIdProp st)
    (awaiting st) (effects st).

(** A render of the component: the handlers are created anew and close
    over the current [orders]. *)
Definition reRender (st : State) : State :=
  mkState (orders st) (orders st) (stompConnected st) (vendorIdProp st)
    (awaiting st) (effects st).

(** The subscription callback on [/topic/orders/<vendorUsername>]. *)
Definition onMessage (updatedOrder : Order) (prevOrders : list Order) : list Order :=
  let newOrdersArray :=
    match Js.findIndex (fun order => String.eqb (id order) (id updatedOrder)) prevOrders with
    | Some existingOrderIndex => <[existingOrderIndex := updatedOrder]> prevOrders
    | None => updatedOrder :: prevOrders
    end in
  sortOrders newOrdersArray.

(** The updater passed to [setOrders] at the start of [handleStatusChange]. *)
Definition optimisticUpdate (orderCustomId : string) (newStatus : Status)
    (prev : list Order) : list Order :=
  let updatedList :=
    map (fun order =>
           if String.eqb (orderId order) orderCustomId
           then with_status order newStatus
           else order) prev in
  sortOrders updatedList.

(** The [catch] block of [handleStatusChange]. *)
Definition catchBlock (prevOrdersState : list Order) (st : State) : State :=
  emit [ConsoleError; Toast "Error" variant_destructive]
    (setOrders (fun _ => sortOrders prevOrdersState) st).

(** [handleStatusChange], run until it returns or suspends at the
    [await].  [orders] in its body is the value of the latest render, while
    the updater passed to [setOrders] receives the current state. *)
Definition handleStatusChange (c : StatusChange) (st : State) : State :=
  let prevOrdersState := rendered st in
  let st1 := setOrders (optimisticUpdate (orderCustomId c) (newStatus c)) st in
  if Status_eqb (currentOrderStatus c) PLACED then
    setAwaiting (awaiting st1 ++ [mkPending prevOrdersState c])
      (emit [AxiosPut (orderCustomId c) (newStatus c) (vendorIdProp st1)] st1)
  else if stompConnected st1 then
    emit [ StompPublish "/app/order.updateStatus" (orderCustomId c) (newStatus c)
             (vendorIdProp st1);
           Toast "Order Updated" variant_success ] st1
  else catchBlock prevOrdersState st1.

(** The continuation of the [n]-th suspended handler once its PUT has
    resolved ([ok]) or rejected. *)
Definition settle (n : nat) (ok : bool) (st : State) : State :=
  match awaiting st !! n with
  | None => st
  | Some p =>
      let st1 := setAwaiting (delete n (awaiting st)) st in
      if ok then emit [Toast "Order Updated" variant_success] st1
      else catchBlock (prevOrdersState p) st1
  end.

(** Events of the event loop that reach the component. *)
Inductive Event : Type :=
  | Render
  | Click (c : StatusChange)
  | PutSettled (n : nat) (ok : bool)
  | Message (updatedOrder : Order)
  | Stomp (up : bool).

Definition step (e : Event) (st : State) : State :=
  match e with
  | Render => reRender st
  | Click c => handleStatusChange c st
  | PutSettled n ok => settle n ok st
  | Message updatedOrder =>
      emit [Toast "Order Update" variant_default]
        (setOrders (onMessage updatedOrder) st)
  | Stomp up => setConnected up st
  end.

Definition run (es : list Event) (st : State) : State :=
  fold_left (fun s e => step e s) es st.

(** Transport requests among the effects. *)
Definition isTransport (e : Effect) : bool :=
  match e with
  | AxiosPut _ _ _ | StompPublish _ _ _ _ => true
  | _ => false
  end.

Definition transportRequests (es : list Effect) : list Effect :=
  List.filter isTransport es.

(** The statuses shown for a public order identifier. *)
Definition visibleStatus (orderCustomId : string) (orders : list Order) : list Status :=
  map status (List.filter (fun order => String.eqb (orderId order) orderCustomId) orders).

(** The events after which [orders] is as before: a render, a change of
    the connection, and a PUT that resolves. *)
Definition quiet (e : Event) : bool :=
  match e with
  | Render | Stomp _ | PutSettled _ true => true
  | Click _ | PutSettled _ false | Message _ => false
  end.

(** Both lists of the component are as [sortOrders] leaves a list. *)
Definition shownSorted (st : State) : Prop :=
  sortOrders (orders st) = orders st /\ sortOrders (rendered st) = rendered st.

(** The frame property of a rollback: when the [n]-th suspended handler
    fails, every order other than its target is shown as before. *)
Definition rollback_frame (st : State) (n : nat) : Prop :=
  forall p, awaiting st !! n = Some p ->
  forall other, other <> orderCustomId (change p) ->
    visibleStatus other (orders (settle n false st))
    = visibleStatus other (orders st).

End OrderQueue.

(** ** OrderTrackingPage: the customer tracker *)

Module OrderTrackingPage.

Record OrderData : Type := mkOrderData {
  id : string;
  orderId : string;
  status : Status;
  estimatedPickupTime : string;
  shopId : Z;
  shopName : string;
  shopAddress : string;
  shopContactNumber : option string;
  customerEmail : string;
  items : list OrderItem;
  totalAmount : Z;
  vendorId : Z;
  vendorName : string
}.

Definition orderStatuses : list (Status * string) :=
  [ (PLACED, "Order Confirmed");
    (PREPARING, "Preparing Food");
    (READY_FOR_PICKUP, "Ready for Pickup");
    (COMPLETED, "Order Completed") ].

(** The page state touched by the subscription: [order], [progress] and
    the toasts shown. *)
Record State : Type := mkState {
  order : option OrderData;
  progress : Z;
  toasts : list string
}.

(** The subscription callback on [/topic/orders/<paramOrderId>]. *)
Definition onMessage (updatedOrder : OrderData) (st : State) : State :=
  match Js.findIndex (fun s => Status_eqb (fst s) (status updatedOrder)) orderStatuses with
  | Some newStatusIndex =>
      mkState (Some updatedOrder)
        ((Z.of_nat newStatusIndex + 1) * (100 / Z.of_nat (length orderStatuses)))
        (toasts st ++ [ String.append "Your order is now: "
                          (nth newStatusIndex (map snd orderStatuses) "") ])
  | None => mkState (Some updatedOrder) (progress st) (toasts st)
  end.

End OrderTrackingPage.

(** ** JavaScript numbers *)

Module Double.

(** A JavaScript [number]: an IEEE 754 binary64 value (53 bits of
    precision, exponents below 1024), with round-to-nearest, ties to even,
    arithmetic. *)
Definition number : Type := spec_float.

Definition add (x y : number) : number := SFadd 53 1024 x y.
Definition mul (x y : number) : number := SFmul 53 1024 x y.
Definition div (x y : number) : number := SFdiv 53 1024 x y.

(** The number denoted by an integer literal. *)
Definition ofZ (n : Z) : number := binary_normalize 53 1024 n 0 false.

(** The number denoted by the decimal literal [n / d], [d] a power of ten:
    the binary64 value nearest to the quotient. *)
Definition decimal (n d : Z) : number := div (ofZ n) (ofZ d).

(** [Math.round]: the nearest integer, a half rounded towards positive
    infinity; an integral value, an infinity and NaN are returned as they
    are, and a value in [[-0.5, 0)] gives the negative zero.  For a
    mantissa [m] and an exponent [e < 0] the result is the floor of
    [m * 2^e + 1/2]. *)
Definition Math_round (x : number) : number :=
  match x with
  | S754_finite s m e =>
      if 0 <=? e then x
      else
        let q := (2 * cond_Zopp s (Zpos m) + 2 ^ (- e)) / 2 ^ (1 - e) in
        if q =? 0 then S754_zero s else ofZ q
  | _ => x
  end.

End Double.

(** ** CheckoutPage *)

Module CheckoutPage.

(** [CheckoutItem]: a product as fetched, with the quantity of the cart;
    [price] and [quantity] are JavaScript numbers. *)
Record CheckoutItem : Type := mkCheckoutItem {
  id : Z;
  name : string;
  price : Double.number;
  imageUrl : string;
  description : string;
  isVeg : bool;
  category : string;
  rating : Z;
  preparationTime : string;
  shopId : Z;
  quantity : Double.number
}.

Record User : Type := mkUser {
  userId : option string;
  userName : option string;
  mobileNumber : option string;
  email : option string
}.

Record PayloadItem : Type := mkPayloadItem {
  productId : Z;
  payloadQuantity : Double.number;
  priceAtOrder : Double.number
}.

Record OrderPayload : Type := mkOrderPayload {
  payloadUserId : string;
  customerName : string;
  customerPhone : string;
  customerEmail : string;
  payloadShopId : Z;
  items : list PayloadItem;
  totalAmount : Double.number;
  status : Status;
  orderDate : Z;
  estimatedPickupTime : Z;
  paymentMethod : string
}.

(** [checkoutItems.reduce((sum, item) => sum + (item.price * item.quantity), 0)] *)
Definition subtotal (checkoutItems : list CheckoutItem) : Double.number :=
  fold_left (fun sum item => Double.add sum (Double.mul (price item) (quantity item)))
    checkoutItems (Double.ofZ 0).

(** [Math.round(subtotal * 0.05)] *)
Definition taxes (checkoutItems : list CheckoutItem) : Double.number :=
  Double.Math_round (Double.mul (subtotal checkoutItems) (Double.decimal 5 100)).

(** [subtotal + taxes] *)
Definition total (checkoutItems : list CheckoutItem) : Double.number :=
  Double.add (subtotal checkoutItems) (taxes checkoutItems).

(** JavaScript truthiness of a nullable string and of a nullable number. *)
Definition truthyString (s : option string) : option string :=
  match s with
  | Some v => if String.eqb v "" then None else Some v
  | None => None
  end.

Definition truthyNumber (n : option Z) : option Z :=
  match n with
  | Some v => if v =? 0 then None else Some v
  | None => None
  end.

Inductive Outcome : Type :=
  | MissingUserInformation
  | EmptyCart
  | Posted (orderPayload : OrderPayload).

(** [handlePlaceOrder] up to the POST of the payload.  [renderTime] and
    [now] are the clock readings at the render and at the click. *)
Definition handlePlaceOrder (user : option User) (checkoutItems : list CheckoutItem)
    (currentShopId : option Z) (paymentMethod : string) (renderTime now : Z) : Outcome :=
  match user with
  | None => MissingUserInformation
  | Some u =>
      match truthyString (userId u), truthyString (userName u),
            truthyString (mobileNumber u), truthyString (email u) with
      | Some uid, Some uname, Some phone, Some mail =>
          match checkoutItems, truthyNumber currentShopId with
          | [], _ | _, None => EmptyCart
          | _ :: _, Some shop =>
              Posted
                (mkOrderPayload uid uname phone mail shop
                   (map (fun item => mkPayloadItem (id item) (quantity item) (price item))
                        checkoutItems)
                   (total checkoutItems)
                   PLACED
                   now
                   (renderTime + 25 * 60 * 1000)
                   paymentMethod)
          end
      | _, _, _, _ => MissingUserInformation
      end
  end.

(** The sum over the line items of a payload of snapshot price times
    quantity, added up from zero in the order of the items, in the
    arithmetic of JavaScript numbers. *)
Definition lineItemsSum (items : list PayloadItem) : Double.number :=
  fold_left (fun sum item =>
               Double.add sum (Double.mul (priceAtOrder item) (payloadQuantity item)))
    items (Double.ofZ 0).

End CheckoutPage.

(** ** The server's status endpoint *)

Module Server.

(** Modelled from the spec: the failures of a transition request in the
    error taxonomy, for an edge outside the legal set and for an unknown
    order identifier; the server is not part of the front-end sources. *)
Inductive TransitionError : Type := InvalidTransition | NotFound.

(** Modelled from the spec: the Transition Validator behind
    [PUT /api/orders/<orderId>/status]; the server is not part of the
    front-end sources.  [canTransition] holds exactly on the legal edges. *)
Definition canTransition (current requested : Status) : bool :=
  legal_edge current requested.

(** Modelled from the spec: [applyTransition] of the Transition Validator,
    which is not part of the front-end sources; an illegal request fails
    with [InvalidTransition] and changes nothing. *)
Definition applyTransition (order : Order) (requested : Status)
    : Order + TransitionError :=
  if canTransition (status order) requested
  then inl (with_status order requested)
  else inr InvalidTransition.

(** Modelled from the spec: the synchronous transition call, which is not
    part of the front-end sources; it looks the order up by its public
    identifier, answers [NotFound] for an unknown one and otherwise
    applies the validator. *)
Definition putStatus (publicId : string) (requested : Status) (db : list Order)
    : list Order * (Order + TransitionError) :=
  match Js.findIndex (fun order => String.eqb (orderId order) publicId) db with
  | None => (db, inr NotFound)
  | Some i =>
      match db !! i with
      | None => (db, inr NotFound)
      | Some order =>
          match applyTransition order requested with
          | inl updated => (<[i := updated]> db, inl updated)
          | inr e => (db, inr e)
          end
      end
  end.

End Server.

(** ** QRCodeScanner *)

Module QRCodeScanner.

(** The request of [fetch]: the order identifier in the path, the method,
    and the two fields of the body as [JSON.stringify] writes them;
    [bodyVendorId] is [None] for [null]. *)
Record Request : Type := mkRequest {
  pathOrderId : string;
  method : string;
  bodyNewStatus : Status;
  bodyVendorId : option Double.number
}.

(** What [fetch] yields: a rejected promise, or a response with its [ok]
    flag; [body] tells whether reading the body ([response.json()] of an
    [ok] response, [response.text()] of another) succeeds. *)
Inductive FetchResult : Type :=
  | Rejected
  | Response (ok : bool) (body : bool).

Inductive Effect : Type :=
  | SetIsUpdatingStatus (b : bool)
  | SetLastScannedCode (code : string)
  | Fetch (r : Request)
  | Toast (title : string) (variant : Variant)
  | ConsoleLog
  | ConsoleError
  | StopScanning.

(** [JSON.stringify] of a number: a finite number is written as it is
    (the negative zero as 0), NaN and the infinities as [null]. *)
Definition JSON_stringify_number (x : Double.number) : option Double.number :=
  match x with
  | S754_nan | S754_infinity _ => None
  | S754_zero _ => Some (S754_zero false)
  | S754_finite _ _ _ => Some x
  end.

Section Scanner.

(** The conversion of a string to a number of ECMAScript, which [Number]
    applies to a string argument. *)
Variable StringToNumber : string -> Double.number.

(** [Number(vendorId)]; the [vendorId] prop is [undefined], here [None],
    when the parent passes none, and [Number(undefined)] is NaN. *)
Definition Number (vendorId : option string) : Double.number :=
  match vendorId with
  | None => S754_nan
  | Some s => StringToNumber s
  end.

(** [updateOrderStatusToCompleted], split at its [await fetch]. *)
Definition updateOrderStatusToCompleted_request (vendorId : option string)
    (orderId : string) : Request :=
  mkRequest orderId "PUT" COMPLETED (JSON_stringify_number (Number vendorId)).

Definition updateOrderStatusToCompleted_start (vendorId : option string)
    (orderId : string) : list Effect :=
  [ SetIsUpdatingStatus true;
    Fetch (updateOrderStatusToCompleted_request vendorId orderId) ].

(** The rest of the [try], the [catch] and the [finally]: a response that
    is not [ok] logs its text and throws; an [ok] response whose body is
    not JSON throws from [response.json()]; every throw ends in the
    [catch], which logs and shows the failure toast. *)
Definition updateOrderStatusToCompleted_resume (result : FetchResult) : list Effect :=
  match result with
  | Response true true => [ ConsoleLog; Toast "Order Completed" variant_success ]
  | Response true false => [ ConsoleError;
                             Toast "Order Update Failed" variant_destructive ]
  | Response false true => [ ConsoleError; ConsoleError;
                             Toast "Order Update Failed" variant_destructive ]
  | Response false false => [ ConsoleError;
                              Toast "Order Update Failed" variant_destructive ]
  | Rejected => [ ConsoleError; Toast "Order Update Failed" variant_destructive ]
  end ++ [ SetIsUpdatingStatus false ].

(** The decode callback installed by [startScanning]: everything it does
    for one scanned code, the continuation of the update included. *)
Definition onDecode (vendorId : option string) (data : string) (result : FetchResult)
    : list Effect :=
  [ ConsoleLog; SetLastScannedCode data ] ++
  updateOrderStatusToCompleted_start vendorId data ++
  [ Toast "QR Code Scanned" variant_default; StopScanning ] ++
  updateOrderStatusToCompleted_resume result.

(** Modelled from the spec: a scan against the status endpoint, which is
    not part of the front-end sources; the request of the scanner is
    answered by the synchronous transition call, a performed transition
    with an [ok] response carrying the updated order as JSON, a refused
    one with a response that is not [ok], and the answer resumes the
    scanner. *)
Definition scan (vendorId : option string) (data : string) (db : list Order)
    : list Order * list Effect :=
  let r := updateOrderStatusToCompleted_request vendorId data in
  let '(db', answer) := Server.putStatus (pathOrderId r) (bodyNewStatus r) db in
  (db', onDecode vendorId data
          (Response (match answer with inl _ => true | inr _ => false end) true)).

End Scanner.

Definition requests (es : list Effect) : list Request :=
  flat_map (fun e => match e with Fetch r => [r] | _ => [] end) es.

(** The toasts of a list of effects, in order. *)
Definition toasts (es : list Effect) : list (string * Variant) :=
  flat_map (fun e => match e with Toast t v => [(t, v)] | _ => [] end) es.

End QRCodeScanner.

(** ** CartContext: the cart shared by the stall pages and the checkout *)

Module CartContext.

Record ProductInCart : Type := mkProductInCart {
  id : Z;
  name : string;
  price : Z;
  imageUrl : string;
  description : string;
  isVeg : bool;
  category : string;
  rating : Z;
  preparationTime : string;
  shopId : Z;
  shopName : option string
}.

(** The three pieces of state of [CartProvider]; [cart] maps a product
    identifier to its quantity.  A call is made from a render that shows
    the state it is applied to. *)
Record State : Type := mkState {
  cart : gmap Z Z;
  currentShopId : option Z;
  currentShopName : option string
}.

Inductive AddResult : Type := added | mismatch | error.

Definition initial : State := mkState ∅ None None.

(** [product.shopName || null] *)
Definition shopNameOrNull (product : ProductInCart) : option string :=
  match shopName product with
  | Some n => if String.eqb n "" then None else Some n
  | None => None
  end.

(** [cart[productId] || 0] *)
Definition getCartItemQuantity (st : State) (productId : Z) : Z :=
  default 0 (cart st !! productId).

(** [Object.values(cart).reduce((sum, count) => sum + count, 0)] *)
Definition totalItemsInCart (st : State) : Z :=
  map_fold (fun _ count sum => sum + count) 0 (cart st).

Definition addToCart (product : ProductInCart) (quantityToAdd : Z) (st : State)
    : AddResult * State :=
  match currentShopId st with
  | None =>
      (added,
       mkState {[ id product := quantityToAdd ]} (Some (shopId product))
         (shopNameOrNull product))
  | Some shop =>
      if shop =? shopId product
      then
        let currentQuantity := default 0 (cart st !! id product) in
        (added,
         mkState (<[ id product := currentQuantity + quantityToAdd ]> (cart st))
           (currentShopId st) (currentShopName st))
      else (mismatch, st)
  end.

Definition clearCartAndAddProduct (product : ProductInCart) (quantityToAdd : Z)
    (st : State) : State :=
  mkState {[ id product := quantityToAdd ]} (Some (shopId product))
    (shopNameOrNull product).

Definition removeFromCart (productId : Z) (quantityToRemove : Z) (st : State) : State :=
  let currentQuantity := default 0 (cart st !! productId) in
  let newQuantity := Z.max 0 (currentQuantity - quantityToRemove) in
  if newQuantity =? 0 then
    let newCart := delete productId (cart st) in
    if decide (newCart = ∅)
    then mkState newCart None None
    else mkState newCart (currentShopId st) (currentShopName st)
  else
    mkState (<[ productId := newQuantity ]> (cart st))
      (currentShopId st) (currentShopName st).

Definition clearCart (st : State) : State := mkState ∅ None None.

(** The calls a page can make on the cart. *)
Inductive Call : Type :=
  | AddToCart (product : ProductInCart) (quantityToAdd : Z)
  | ClearCartAndAddProduct (product : ProductInCart) (quantityToAdd : Z)
  | RemoveFromCart (productId : Z) (quantityToRemove : Z)
  | ClearCart.

Definition call (c : Call) (st : State) : State :=
  match c with
  | AddToCart product q => snd (addToCart product q st)
  | ClearCartAndAddProduct product q => clearCartAndAddProduct product q st
  | RemoveFromCart productId q => removeFromCart productId q st
  | ClearCart => clearCart st
  end.

(** The shop of the cart is known exactly when the cart holds a product. *)
Definition shopKnown (st : State) : Prop :=
  currentShopId st = None <-> cart st = ∅.

(** Every quantity held is positive. *)
Definition quantitiesPositive (st : State) : Prop :=
  forall productId quantity, cart st !! productId = Some quantity -> 0 < quantity.

(** A call that adds or removes a positive quantity. *)
Definition positiveCall (c : Call) : Prop :=
  match c with
  | AddToCart _ q | ClearCartAndAddProduct _ q | RemoveFromCart _ q => 0 < q
  | ClearCart => True
  end.

End CartContext.

(** ** OrderTrackingPage: what the page derives from the order held *)

Module Tracker.

(** [getCurrentStatusIndex]; -1 when no order is held or its status is
    not a step of the timeline. *)
Definition getCurrentStatusIndex (order : option OrderTrackingPage.OrderData) : Z :=
  match order with
  | None => -1
  | Some o =>
      match Js.findIndex (fun s => Status_eqb (fst s) (OrderTrackingPage.status o))
              OrderTrackingPage.orderStatuses with
      | Some i => Z.of_nat i
      | None => -1
      end
  end.

(** One row of the status timeline: its label and the two flags
    [isCompleted] and [isCurrent]. *)
Record Step : Type := mkStep {
  label : string;
  isCompleted : bool;
  isCurrent : bool
}.

Definition timeline (order : option OrderTrackingPage.OrderData) : list Step :=
  imap (fun index statusItem =>
          let currentIndex := getCurrentStatusIndex order in
          mkStep (snd statusItem)
            (Z.of_nat index <=? currentIndex)
            (Z.of_nat index =? currentIndex))
       OrderTrackingPage.orderStatuses.

(** [getEstimatedTimeRemaining]: [getTime] stands for
    [new Date(...).getTime()] on the pickup time held by the order and
    [currentTime] for the clock, both in milliseconds; the difference in
    minutes is rounded to the nearest integer, halves upwards. *)
Definition getEstimatedTimeRemaining (getTime : string -> Z) (currentTime : Z)
    (order : option OrderTrackingPage.OrderData) : option Z :=
  match order with
  | None => None
  | Some o =>
      if String.eqb (OrderTrackingPage.estimatedPickupTime o) "" then None
      else
        let pickupTime := getTime (OrderTrackingPage.estimatedPickupTime o) in
        let diffMinutes := (pickupTime - currentTime + 30000) / (1000 * 60) in
        Some (if 0 <? diffMinutes then diffMinutes else 0)
  end.

(** The state after [fetchOrder] has received the order. *)
Definition onFetched (data : OrderTrackingPage.OrderData) (st : OrderTrackingPage.State)
    : OrderTrackingPage.State :=
  match Js.findIndex (fun s => Status_eqb (fst s) (OrderTrackingPage.status data))
          OrderTrackingPage.orderStatuses with
  | Some initialStatusIndex =>
      OrderTrackingPage.mkState (Some data)
        ((Z.of_nat initialStatusIndex + 1)
         * (100 / Z.of_nat (length OrderTrackingPage.orderStatuses)))
        (OrderTrackingPage.toasts st)
  | None =>
      OrderTrackingPage.mkState (Some data) (OrderTrackingPage.progress st)
        (OrderTrackingPage.toasts st)
  end.

End Tracker.

(** ** Runs of the vendor queue *)

Module QueueRuns.

(** The calls of [handleStatusChange] among the events of a run. *)
Definition clicks (es : list OrderQueue.Event) : nat :=
  length (List.filter (fun e => match e with OrderQueue.Click _ => true | _ => false end) es).

End QueueRuns.

(** ** Concrete orders used in examples *)

Module Sample.

Definition order (i oid : string) (s : Status) (t : Z) : Order :=
  mkOrder i oid "asha@example.org" "Asha" "5550100"
    [mkOrderItem "p1" "Dosa" 60 2 "dosa.png" true] 126 s t
    "2025-06-26T10:25:00Z" "v1" "s1" "Corner Stall" "Ravi" "Lane 1".

Definition older : Order := order "665f1c01" "ORD-A" PLACED 1000.
Definition cooking : Order := order "665f1c02" "ORD-B" PREPARING 1500.
Definition newer : Order := order "665f1c03" "ORD-C" PLACED 2000.

(** Broadcast payloads for [older]: accepted, then ready. *)
Definition olderPreparing : Order := order "665f1c01" "ORD-A" PREPARING 1000.
Definition olderReady : Order := order "665f1c01" "ORD-A" READY_FOR_PICKUP 1000.

(** A ready order and a completed one. *)
Definition waiting : Order := order "665f1c04" "ORD-Z" READY_FOR_PICKUP 900.
Definition served : Order := order "665f1c05" "ORD-Y" COMPLETED 500.

(** A signed-in customer and a cart item: one dosa at 100; three thalis
    at 209.94 and three lassis at 20.06. *)

Definition customer : CheckoutPage.User :=
  CheckoutPage.mkUser (Some "u7") (Some "Asha") (Some "5550100")
    (Some "asha@example.org").

Definition dosa : CheckoutPage.CheckoutItem :=
  CheckoutPage.mkCheckoutItem 11 "Dosa" (Double.ofZ 100) "dosa.png" "Plain dosa" true
    "Breakfast" 4 "10 min" 3 (Double.ofZ 1).

Definition thali : CheckoutPage.CheckoutItem :=
  CheckoutPage.mkCheckoutItem 12 "Thali" (Double.decimal 20994 100) "thali.png"
    "Full thali" true "Lunch" 4 "20 min" 3 (Double.ofZ 3).

Definition lassi : CheckoutPage.CheckoutItem :=
  CheckoutPage.mkCheckoutItem 13 "Lassi" (Double.decimal 2006 100) "lassi.png"
    "Sweet lassi" true "Drinks" 4 "5 min" 3 (Double.ofZ 3).

(** The calls wired to the buttons of the queue. *)
Definition accept (o : Order) : StatusChange :=
  mkStatusChange (orderId o) (status o) PREPARING.
Definition markReady (o : Order) : StatusChange :=
  mkStatusChange (orderId o) (status o) READY_FOR_PICKUP.

(** A queue showing the given snapshot response, with a live connection. *)
Definition queue (responseData : list Order) : OrderQueue.State :=
  OrderQueue.mkState (OrderQueue.fetchInitialOrders responseData)
    (OrderQueue.fetchInitialOrders responseData) true "v1" [] [].

End Sample.

(** ** Further concrete values used in examples *)

Module Example.

(** An order on the tracker and the reading of its pickup time. *)
Definition tracked : OrderTrackingPage.OrderData :=
  OrderTrackingPage.mkOrderData "665f1c01" "ORD-A" PREPARING
    "2025-06-26T10:25:00Z" 3 "Corner Stall" "Lane 1" None "asha@example.org"
    [mkOrderItem "p1" "Dosa" 60 2 "dosa.png" true] 126 1 "Ravi".

Definition getTime (s : string) : Z :=
  if String.eqb s "2025-06-26T10:25:00Z" then 1750933500000 else 0.

(** A product of shop 3 and one of shop 4. *)
Definition dosa : CartContext.ProductInCart :=
  CartContext.mkProductInCart 11 "Dosa" 100 "dosa.png" "Plain dosa" true
    "Breakfast" 4 "10 min" 3 (Some "Corner Stall").

Definition vada : CartContext.ProductInCart :=
  CartContext.mkProductInCart 21 "Vada" 40 "vada.png" "Medu vada" true
    "Snacks" 4 "5 min" 4 None.

End Example.

(** * Properties *)

(** ** The array primitives *)

Section ArrayFacts.
Context {A : Type}.
Implicit Types (l : list A) (p : A -> bool).

Lemma findIndex_Some p l i :
  Js.findIndex p l = Some i ->
  exists x, l !! i = Some x /\ p x = true /\
            forall j y, (j < i)%nat -> l !! j = Some y -> p y = false.
Proof.
  revert i; induction l as [|a l IH]; intros i; simpl; [discriminate|].
  destruct (p a) eqn:Ha.
  - intros [= <-]. exists a. repeat split; auto. intros j y Hj; lia.
  - destruct (Js.findIndex p l) as [k|] eqn:Hk; simpl; [|discriminate].
    intros [= <-]. destruct (IH k eq_refl) as (x & Hx & Hp & Hmin).
    exists x. repeat split; auto.
    intros [|j] y Hj; simpl.
    + intros [= <-]; exact Ha.
    + apply Hmin; lia.
Qed.

Lemma findIndex_None p l :
  Js.findIndex p l = None -> forall x, In x l -> p x = false.
Proof.
  induction l as [|a l IH]; simpl; [tauto|].
  destruct (p a) eqn:Ha; [discriminate|].
  destruct (Js.findIndex p l); simpl; [discriminate|].
  intros _ x [<-|Hx]; auto.
Qed.

Lemma findIndex_is_Some p l x :
  In x l -> p x = true -> exists i, Js.findIndex p l = Some i.
Proof.
  intros Hin Hp. destruct (Js.findIndex p l) as [i|] eqn:E; [eauto|].
  rewrite (findIndex_None _ _ E x Hin) in Hp; discriminate.
Qed.

Variable comparefn : A -> A -> Z.

Lemma insert_back_Permutation item rprefix :
  Permutation (Js.insert_back comparefn item rprefix) (item :: rprefix).
Proof.
  induction rprefix as [|prev rest IH]; simpl; [reflexivity|].
  destruct (0 <? comparefn prev item); [|reflexivity].
  rewrite IH. apply perm_swap.
Qed.

Lemma sort_fold_Permutation l acc :
  Permutation
    (fold_left (fun rprefix item => Js.insert_back comparefn item rprefix) l acc)
    (l ++ acc).
Proof.
  revert acc; induction l as [|a l IH]; intros acc; simpl; [reflexivity|].
  rewrite IH, insert_back_Permutation. symmetry. apply Permutation_middle.
Qed.

Lemma sort_Permutation l : Permutation (Js.sort comparefn l) l.
Proof.
  unfold Js.sort. rewrite <- Permutation_rev, sort_fold_Permutation.
  now rewrite app_nil_r.
Qed.

Lemma sort_In l x : In x (Js.sort comparefn l) <-> In x l.
Proof.
  split; apply Permutation_in; [|symmetry]; apply sort_Permutation.
Qed.

Lemma sort_length l : length (Js.sort comparefn l) = length l.
Proof. apply Permutation_length, sort_Permutation. Qed.

End ArrayFacts.

(** ** Status *)

Lemma Status_eqb_eq (a b : Status) : Status_eqb a b = true <-> a = b.
Proof. destruct a, b; simpl; split; congruence. Qed.

Lemma Status_eqb_refl (a : Status) : Status_eqb a a = true.
Proof. now destruct a. Qed.

Lemma with_status_same (order : Order) : with_status order (status order) = order.
Proof. now destruct order. Qed.

(** ** The vendor queue: which transitions its buttons can request *)

Lemma render_In (orders : list Order) (order : Order) (calls : list StatusChange) :
  In (order, calls) (OrderQueue.render orders) <->
  In order orders /\
  calls = match status order with
          | PLACED => OrderQueue.pendingActions order
          | PREPARING => OrderQueue.preparingActions order
          | READY_FOR_PICKUP => OrderQueue.readyActions order
          | COMPLETED | REJECTED => []
          end.
Proof.
  unfold OrderQueue.render, OrderQueue.pendingOrders, OrderQueue.preparingOrders,
    OrderQueue.readyOrders, OrderQueue.historicalOrders.
  rewrite !in_app_iff, !in_map_iff.
  split.
  - intros [H|[H|[H|H]]]; destruct H as (o & [= -> <-] & Hin);
      apply List.filter_In in Hin as [Hin Hs];
      destruct (status order); simpl in Hs; try discriminate; auto.
  - intros [Hin ->].
    destruct (status order) eqn:Hs;
      [ left | right; left | right; right; left | right; right; right
      | right; right; right ];
      exists order; (split; [reflexivity|]);
      apply List.filter_In; rewrite Hs; auto.
Qed.

(** C1: a transition from [s] to [t] can be requested through the vendor
    queue exactly when [(s, t)] is one of the four legal edges: for the
    queue's own cards and for the stand-alone card component, the buttons
    shown for an order request the pairs [(status, t)] with a legal edge and
    no others; in particular no self-pair, no backward pair, and nothing at
    all for an order in COMPLETED or REJECTED. *)
Theorem queue_requests_exactly_legal_edges :
  (forall (orders : list Order) (order : Order) (s t : Status),
     OrderQueue.requestable orders order s t <->
     In order orders /\ status order = s /\ legal_edge s t = true) /\
  (forall (order : Order) (s t : Status),
     OrderCard.requestable order s t <->
     status order = s /\ legal_edge s t = true) /\
  (forall s t : Status,
     (exists orders order, OrderQueue.requestable orders order s t) <->
     legal_edge s t = true) /\
  (forall (orders : list Order) (order : Order) (s t : Status),
     status order = COMPLETED \/ status order = REJECTED ->
     ~ OrderQueue.requestable orders order s t).
Proof.
  assert (Hq : forall orders order s t,
     OrderQueue.requestable orders order s t <->
     In order orders /\ status order = s /\ legal_edge s t = true).
  { intros orders order s t. unfold OrderQueue.requestable. split.
    - intros (calls & c & Hin & Hc & <- & <-).
      apply render_In in Hin as [Hin ->]. split; [exact Hin|].
      destruct (status order) eqn:Hs; simpl in Hc;
        repeat (destruct Hc as [<-|Hc]; [simpl; rewrite ?Hs; auto|]);
        destruct Hc.
    - intros (Hin & <- & Hl).
      assert (Hcard : forall c,
                In c (match status order with
                      | PLACED => OrderQueue.pendingActions order
                      | PREPARING => OrderQueue.preparingActions order
                      | READY_FOR_PICKUP => OrderQueue.readyActions order
                      | COMPLETED | REJECTED => []
                      end) ->
                currentOrderStatus c = status order -> newStatus c = t ->
                exists calls c, In (order, calls) (OrderQueue.render orders) /\
                  In c calls /\ currentOrderStatus c = status order /\
                  newStatus c = t).
      { intros c Hc Hcur Hnew. eexists; exists c.
        split; [apply render_In; split; [exact Hin|reflexivity]|auto]. }
      destruct (status order) eqn:Hs; destruct t; try discriminate Hl.
      + apply (Hcard (mkStatusChange (orderId order) PLACED PREPARING));
          simpl; rewrite ?Hs; auto.
      + apply (Hcard (mkStatusChange (id order) PLACED REJECTED));
          simpl; rewrite ?Hs; auto.
      + apply (Hcard (mkStatusChange (orderId order) PREPARING READY_FOR_PICKUP));
          simpl; rewrite ?Hs; auto.
      + apply (Hcard (mkStatusChange (orderId order) READY_FOR_PICKUP COMPLETED));
          simpl; rewrite ?Hs; auto. }
  split; [exact Hq|]. split; [|split].
  - intros order s t. unfold OrderCard.requestable, OrderCard.actions. split.
    + intros (cb & c & Hin & <- & <-).
      destruct (status order) eqn:Hs; simpl in Hin;
        repeat (destruct Hin as [[= <- <-]|Hin]; [simpl; rewrite ?Hs; auto|]);
        destruct Hin.
    + intros (<- & Hl).
      destruct (status order) eqn:Hs; destruct t; try discriminate Hl; simpl.
      * exists OrderCard.onAccept; eexists; split; [left; reflexivity|auto].
      * exists OrderCard.onReject; eexists; split; [right; left; reflexivity|auto].
      * exists OrderCard.onReady; eexists; split; [left; reflexivity|auto].
      * exists OrderCard.onComplete; eexists; split; [left; reflexivity|auto].
  - intros s t. split.
    + intros (orders & order & H). apply Hq in H. tauto.
    + intros Hl. exists [Sample.order "i" "o" s 0], (Sample.order "i" "o" s 0).
      apply Hq. simpl; auto.
  - intros orders order s t Hterm H. apply Hq in H as (_ & <- & Hl).
    destruct Hterm as [E|E]; rewrite E in Hl; discriminate.
Qed.

(** ** The vendor queue: sections and their order *)

Lemma sortOrders_Permutation (l : list Order) :
  Permutation (OrderQueue.sortOrders l) l.
Proof. apply sort_Permutation. Qed.

Lemma sortOrders_In (l : list Order) (o : Order) :
  In o (OrderQueue.sortOrders l) <-> In o l.
Proof. apply sort_In. Qed.

(** Every order is shown in exactly one of the four sections. *)
Lemma sections_partition (l : list Order) :
  Permutation
    (OrderQueue.pendingOrders l ++ OrderQueue.preparingOrders l ++
     OrderQueue.readyOrders l ++ OrderQueue.historicalOrders l) l.
Proof.
  unfold OrderQueue.pendingOrders, OrderQueue.preparingOrders,
    OrderQueue.readyOrders, OrderQueue.historicalOrders.
  induction l as [|o l IH]; [reflexivity|].
  cbn [List.filter]. destruct (status o); simpl.
  - now constructor.
  - rewrite <- Permutation_middle. now constructor.
  - rewrite app_assoc, <- Permutation_middle, <- app_assoc. now constructor.
  - rewrite !app_assoc, <- Permutation_middle, <- !app_assoc. now constructor.
  - rewrite !app_assoc, <- Permutation_middle, <- !app_assoc. now constructor.
Qed.

(** C6 (the code at the failing input): a snapshot that lists an older
    PLACED order, a PREPARING order, a READY_FOR_PICKUP order and a newer
    PLACED order is kept in that order by [sortOrders], since the
    comparator answers 0 for every pair of neighbours; the pending section
    then shows the older order before the newer one, oldest first. *)
Theorem pending_section_oldest_first :
  let responseData := [Sample.older; Sample.cooking; Sample.waiting; Sample.newer] in
  OrderQueue.orders (Sample.queue responseData) = responseData /\
  OrderQueue.pendingOrders (OrderQueue.orders (Sample.queue responseData))
    = [Sample.older; Sample.newer] /\
  orderTime Sample.older < orderTime Sample.newer.
Proof. repeat split. Qed.

(** Five orders with statuses PLACED, PLACED, PREPARING,
    READY_FOR_PICKUP, COMPLETED fall into sections of sizes 2, 1, 1, 1, and
    the two PLACED orders, neighbours in the array, are shown newest
    first. *)
Lemma sections_of_five_orders :
  let shown :=
    OrderQueue.orders
      (Sample.queue [Sample.older; Sample.newer; Sample.cooking;
                     Sample.waiting; Sample.served]) in
  OrderQueue.pendingOrders shown = [Sample.newer; Sample.older] /\
  OrderQueue.preparingOrders shown = [Sample.cooking] /\
  OrderQueue.readyOrders shown = [Sample.waiting] /\
  OrderQueue.historicalOrders shown = [Sample.served].
Proof. repeat split. Qed.

(** ** The vendor queue: the optimistic update *)

Lemma optimisticUpdate_In (cid : string) (ns : Status) (prev : list Order) (o : Order) :
  In o (OrderQueue.optimisticUpdate cid ns prev) <->
  exists o0, In o0 prev /\
    o = if String.eqb (orderId o0) cid then with_status o0 ns else o0.
Proof.
  unfold OrderQueue.optimisticUpdate. rewrite sortOrders_In, in_map_iff.
  split; intros (o0 & H1 & H2); exists o0; auto.
Qed.

(** A click whose first argument is the public identifier of an order in
    the list leaves that order with the requested status. *)
Lemma optimisticUpdate_sets_status (ns : Status) (prev : list Order) (o : Order) :
  In o prev ->
  In (with_status o ns) (OrderQueue.optimisticUpdate (orderId o) ns prev).
Proof.
  intros Hin. apply optimisticUpdate_In. exists o. split; [exact Hin|].
  now rewrite String.eqb_refl.
Qed.

(** When no order carries the identifier passed, nothing changes but the
    sorting. *)
Lemma optimisticUpdate_no_match (cid : string) (ns : Status) (prev : list Order) :
  (forall o, In o prev -> orderId o <> cid) ->
  OrderQueue.optimisticUpdate cid ns prev = OrderQueue.sortOrders prev.
Proof.
  intros Hno. unfold OrderQueue.optimisticUpdate. f_equal.
  rewrite <- (map_id prev) at 2. apply map_ext_in. intros o Hin.
  destruct (String.eqb (orderId o) cid) eqn:E; [|reflexivity].
  apply String.eqb_eq in E. now apply Hno in E.
Qed.

(** C7 (the code at the failing input): the reject button of a PLACED
    order calls the handler with [order.id]; the optimistic update matches
    on [order.orderId], finds no order, and the order is still shown as
    PLACED while the PUT has been issued.  The accept button of the same
    card passes [order.orderId] and the order is shown as PREPARING. *)
Theorem reject_click_leaves_order_placed :
  let st := Sample.queue [Sample.older] in
  exists accept reject,
    OrderQueue.render (OrderQueue.orders st) = [(Sample.older, [accept; reject])] /\
    newStatus reject = REJECTED /\
    OrderQueue.orders (OrderQueue.step (OrderQueue.Click reject) st) = [Sample.older] /\
    OrderQueue.visibleStatus (orderId Sample.older)
      (OrderQueue.orders (OrderQueue.step (OrderQueue.Click reject) st)) = [PLACED] /\
    OrderQueue.effects (OrderQueue.step (OrderQueue.Click reject) st)
      = [OrderQueue.AxiosPut (id Sample.older) REJECTED "v1"] /\
    OrderQueue.visibleStatus (orderId Sample.older)
      (OrderQueue.orders (OrderQueue.step (OrderQueue.Click accept) st)) = [PREPARING].
Proof. do 2 eexists. repeat split. Qed.

(** ** Ingesting a broadcast event *)

Section ListFacts.
Context {A B : Type}.

Lemma lookup_In (l : list A) (i : nat) (x : A) : l !! i = Some x -> In x l.
Proof.
  intros H. apply list_elem_of_In. eapply list_elem_of_lookup_2; eauto.
Qed.

Lemma In_insert (l : list A) (i : nat) (x : A) :
  (i < length l)%nat -> In x (<[i := x]> l).
Proof.
  intros H. apply (lookup_In _ i). now apply list_lookup_insert_eq.
Qed.

Lemma In_insert_inv (l : list A) (i : nat) (x y : A) :
  In y (<[i := x]> l) -> y = x \/ exists j, j <> i /\ l !! j = Some y.
Proof.
  intros H. apply list_elem_of_In, list_elem_of_lookup in H as [j Hj].
  destruct (decide (i = j)) as [->|Hne].
  - left. assert (j < length l)%nat.
    { apply lookup_lt_Some in Hj. now rewrite length_insert in Hj. }
    rewrite list_lookup_insert_eq in Hj by assumption. congruence.
  - right. exists j. rewrite list_lookup_insert_ne in Hj by assumption. auto.
Qed.

Lemma NoDup_map_lookup (f : A -> B) (l : list A) (i j : nat) (a b : A) :
  List.NoDup (map f l) -> l !! i = Some a -> l !! j = Some b -> f a = f b -> i = j.
Proof.
  revert i j; induction l as [|x l IH]; intros i j Hnd Hi Hj Hf; [discriminate|].
  simpl in Hnd. apply List.NoDup_cons_iff in Hnd as [Hx Hnd].
  destruct i as [|i], j as [|j]; simpl in *.
  - reflexivity.
  - injection Hi as ->. exfalso. apply Hx. rewrite Hf.
    apply in_map. eapply lookup_In; eauto.
  - injection Hj as ->. exfalso. apply Hx. rewrite <- Hf.
    apply in_map. eapply lookup_In; eauto.
  - f_equal. eauto.
Qed.

Lemma map_insert_same (f : A -> B) (l : list A) (i : nat) (old x : A) :
  l !! i = Some old -> f x = f old -> map f (<[i := x]> l) = map f l.
Proof.
  revert i; induction l as [|y l IH]; intros [|i] Hi Hf; simpl in *;
    try discriminate.
  - injection Hi as ->. now rewrite Hf.
  - f_equal. eauto.
Qed.
End ListFacts.

Lemma onMessage_existing (updatedOrder : Order) (prevOrders : list Order) (local : Order) :
  In local prevOrders -> id local = id updatedOrder ->
  exists i old,
    prevOrders !! i = Some old /\ id old = id updatedOrder /\
    OrderQueue.onMessage updatedOrder prevOrders
      = OrderQueue.sortOrders (<[i := updatedOrder]> prevOrders).
Proof.
  intros Hin Hid. unfold OrderQueue.onMessage.
  destruct (findIndex_is_Some
              (fun order => String.eqb (id order) (id updatedOrder))
              prevOrders local Hin) as [i Hi].
  { now apply String.eqb_eq. }
  rewrite Hi. apply findIndex_Some in Hi as (old & Hold & Hp & _).
  exists i, old. apply String.eqb_eq in Hp. auto.
Qed.

Lemma onMessage_ids (updatedOrder : Order) (prevOrders : list Order) (local : Order) :
  In local prevOrders -> id local = id updatedOrder ->
  Permutation (map id (OrderQueue.onMessage updatedOrder prevOrders))
              (map id prevOrders).
Proof.
  intros Hin Hid.
  destruct (onMessage_existing _ _ _ Hin Hid) as (i & old & Hold & Hido & ->).
  rewrite (Permutation_map id (sortOrders_Permutation _)).
  now rewrite (map_insert_same id _ _ old).
Qed.

(** With distinct identifiers in the list, the record of an identifier
    after its event has been ingested is the payload. *)
Lemma onMessage_payload (updatedOrder : Order) (prevOrders : list Order) (local : Order) :
  List.NoDup (map id prevOrders) ->
  In local prevOrders -> id local = id updatedOrder ->
  In updatedOrder (OrderQueue.onMessage updatedOrder prevOrders) /\
  forall o, In o (OrderQueue.onMessage updatedOrder prevOrders) ->
            id o = id updatedOrder -> o = updatedOrder.
Proof.
  intros Hnd Hin Hid.
  destruct (onMessage_existing _ _ _ Hin Hid) as (i & old & Hold & Hido & ->).
  split.
  - apply sortOrders_In, In_insert. eapply lookup_lt_Some; eauto.
  - intros o Ho Hoid. apply sortOrders_In, In_insert_inv in Ho as [->|(j & Hne & Hj)];
      [reflexivity|].
    exfalso. apply Hne.
    apply (NoDup_map_lookup id prevOrders j i o old); congruence.
Qed.

Lemma optimisticUpdate_ids (cid : string) (ns : Status) (prev : list Order) :
  Permutation (map id (OrderQueue.optimisticUpdate cid ns prev)) (map id prev).
Proof.
  unfold OrderQueue.optimisticUpdate.
  rewrite (Permutation_map id (sortOrders_Permutation _)), map_map.
  erewrite map_ext; [reflexivity|].
  intros o; simpl. now destruct (String.eqb (orderId o) cid).
Qed.

(** ** Sorting twice *)

(** The insertion sort leaves a list it has sorted as it is.  This is a
    fact of this implementation of the sort; it serves to show that the
    lists of the queue meet the sortedness assumed of them further on. *)

Section SortFixpoint.
Context {A : Type} (comparefn : A -> A -> Z).
Hypothesis comparefn_asym : forall a b, 0 < comparefn a b -> ~ 0 < comparefn b a.

Lemma insert_back_settled item rprefix :
  Js.settled comparefn rprefix ->
  Js.settled comparefn (Js.insert_back comparefn item rprefix).
Proof.
  induction rprefix as [|prev rest IH]; intros Hs; [simpl; auto|].
  cbn [Js.insert_back]. destruct (0 <? comparefn prev item) eqn:E.
  - destruct Hs as [Hhead Hrest]. specialize (IH Hrest).
    split; [|exact IH].
    destruct rest as [|y rest']; cbn [Js.insert_back].
    + apply Z.ltb_lt in E. apply Z.ltb_ge.
      specialize (comparefn_asym _ _ E). lia.
    + destruct (0 <? comparefn y item); [exact Hhead|].
      apply Z.ltb_lt in E. apply Z.ltb_ge.
      specialize (comparefn_asym _ _ E). lia.
  - split; [exact E|exact Hs].
Qed.

Lemma sort_fold_settled l acc :
  Js.settled comparefn acc ->
  Js.settled comparefn
    (fold_left (fun rprefix item => Js.insert_back comparefn item rprefix) l acc).
Proof.
  revert acc; induction l as [|a l IH]; intros acc Hs; [exact Hs|].
  simpl. apply IH, insert_back_settled, Hs.
Qed.

Lemma settled_app l1 l2 :
  Js.settled comparefn (l1 ++ l2) -> Js.settled comparefn l2.
Proof.
  induction l1 as [|a l1 IH]; [auto|]. simpl. intros [_ H]. auto.
Qed.

Lemma sort_fold_fixed l acc :
  Js.settled comparefn (rev l ++ acc) ->
  fold_left (fun rprefix item => Js.insert_back comparefn item rprefix) l acc
  = rev l ++ acc.
Proof.
  revert acc; induction l as [|a l IH]; intros acc Hs; [reflexivity|].
  cbn [fold_left rev] in *. rewrite <- app_assoc in *. cbn [app] in *.
  assert (Hins : Js.insert_back comparefn a acc = a :: acc).
  { apply settled_app in Hs. destruct acc as [|y acc']; [reflexivity|].
    destruct Hs as [Hy _]. cbn [Js.insert_back]. now rewrite Hy. }
  rewrite Hins. now apply IH.
Qed.

Lemma sort_idempotent l :
  Js.sort comparefn (Js.sort comparefn l) = Js.sort comparefn l.
Proof.
  unfold Js.sort at 1 3.
  set (r := fold_left _ l []).
  assert (Hr : Js.settled comparefn r) by (apply sort_fold_settled; exact I).
  unfold Js.sort. f_equal. rewrite sort_fold_fixed.
  - now rewrite rev_involutive, app_nil_r.
  - now rewrite rev_involutive, app_nil_r.
Qed.
End SortFixpoint.

Lemma compareOrders_asym (a b : Order) :
  0 < OrderQueue.compareOrders a b -> ~ 0 < OrderQueue.compareOrders b a.
Proof.
  unfold OrderQueue.compareOrders.
  rewrite (andb_comm (Status_eqb (status b) PLACED)).
  destruct (Status_eqb (status a) PLACED && Status_eqb (status b) PLACED); lia.
Qed.

Lemma sortOrders_idempotent (l : list Order) :
  OrderQueue.sortOrders (OrderQueue.sortOrders l) = OrderQueue.sortOrders l.
Proof. apply sort_idempotent, compareOrders_asym. Qed.

Lemma sortOrders_optimisticUpdate (cid : string) (ns : Status) (l : list Order) :
  OrderQueue.sortOrders (OrderQueue.optimisticUpdate cid ns l)
  = OrderQueue.optimisticUpdate cid ns l.
Proof. apply sortOrders_idempotent. Qed.

(** The lists of a queue that shows a snapshot are sorted. *)
Lemma queue_shownSorted (responseData : list Order) :
  OrderQueue.shownSorted (Sample.queue responseData).
Proof. split; apply sortOrders_idempotent. Qed.

(** ** The status handler: routing, failure, rollback *)

Lemma transportRequests_app (es1 es2 : list OrderQueue.Effect) :
  OrderQueue.transportRequests (es1 ++ es2)
  = OrderQueue.transportRequests es1 ++ OrderQueue.transportRequests es2.
Proof. apply List.filter_app. Qed.

Lemma Status_eqb_neq (a b : Status) : a <> b -> Status_eqb a b = false.
Proof.
  intros H. destruct (Status_eqb a b) eqn:E; [|reflexivity].
  now apply Status_eqb_eq in E.
Qed.

(** The three ways through [handleStatusChange]. *)
Lemma handleStatusChange_put (c : StatusChange) (st : OrderQueue.State) :
  currentOrderStatus c = PLACED ->
  OrderQueue.handleStatusChange c st
  = OrderQueue.mkState
      (OrderQueue.optimisticUpdate (orderCustomId c) (newStatus c) (OrderQueue.orders st))
      (OrderQueue.rendered st)
      (OrderQueue.stompConnected st) (OrderQueue.vendorIdProp st)
      (OrderQueue.awaiting st ++ [OrderQueue.mkPending (OrderQueue.rendered st) c])
      (OrderQueue.effects st ++
       [OrderQueue.AxiosPut (orderCustomId c) (newStatus c) (OrderQueue.vendorIdProp st)]).
Proof.
  intros H. unfold OrderQueue.handleStatusChange. now rewrite H.
Qed.

Lemma handleStatusChange_publish (c : StatusChange) (st : OrderQueue.State) :
  currentOrderStatus c <> PLACED -> OrderQueue.stompConnected st = true ->
  OrderQueue.handleStatusChange c st
  = OrderQueue.mkState
      (OrderQueue.optimisticUpdate (orderCustomId c) (newStatus c) (OrderQueue.orders st))
      (OrderQueue.rendered st)
      (OrderQueue.stompConnected st) (OrderQueue.vendorIdProp st)
      (OrderQueue.awaiting st)
      (OrderQueue.effects st ++
       [OrderQueue.StompPublish "/app/order.updateStatus" (orderCustomId c)
          (newStatus c) (OrderQueue.vendorIdProp st);
        OrderQueue.Toast "Order Updated" variant_success]).
Proof.
  intros H Hc. unfold OrderQueue.handleStatusChange.
  rewrite (Status_eqb_neq _ _ H).
  destruct st as [os rs conn vid aw es]. simpl in *. now subst conn.
Qed.

Lemma handleStatusChange_disconnected (c : StatusChange) (st : OrderQueue.State) :
  currentOrderStatus c <> PLACED -> OrderQueue.stompConnected st = false ->
  OrderQueue.handleStatusChange c st
  = OrderQueue.mkState
      (OrderQueue.sortOrders (OrderQueue.rendered st))
      (OrderQueue.rendered st)
      (OrderQueue.stompConnected st) (OrderQueue.vendorIdProp st)
      (OrderQueue.awaiting st)
      (OrderQueue.effects st ++
       [OrderQueue.ConsoleError; OrderQueue.Toast "Error" variant_destructive]).
Proof.
  intros H Hc. unfold OrderQueue.handleStatusChange.
  rewrite (Status_eqb_neq _ _ H).
  destruct st as [os rs conn vid aw es]. simpl in *. now subst conn.
Qed.

Lemma settle_rejected (n : nat) (p : OrderQueue.Pending) (st : OrderQueue.State) :
  OrderQueue.awaiting st !! n = Some p ->
  OrderQueue.settle n false st
  = OrderQueue.mkState
      (OrderQueue.sortOrders (OrderQueue.prevOrdersState p))
      (OrderQueue.rendered st)
      (OrderQueue.stompConnected st) (OrderQueue.vendorIdProp st)
      (delete n (OrderQueue.awaiting st))
      (OrderQueue.effects st ++
       [OrderQueue.ConsoleError; OrderQueue.Toast "Error" variant_destructive]).
Proof.
  intros H. unfold OrderQueue.settle. now rewrite H.
Qed.

Lemma settle_resolved (n : nat) (p : OrderQueue.Pending) (st : OrderQueue.State) :
  OrderQueue.awaiting st !! n = Some p ->
  OrderQueue.settle n true st
  = OrderQueue.mkState
      (OrderQueue.orders st)
      (OrderQueue.rendered st)
      (OrderQueue.stompConnected st) (OrderQueue.vendorIdProp st)
      (delete n (OrderQueue.awaiting st))
      (OrderQueue.effects st ++ [OrderQueue.Toast "Order Updated" variant_success]).
Proof.
  intros H. unfold OrderQueue.settle. now rewrite H.
Qed.

(** C3: a change requested for an order whose current status is PLACED is
    sent by the HTTP PUT and the handler awaits the answer; for every other
    current status it is published on the STOMP destination, or fails at
    once when the client is not connected.  A failure of either path ends
    in the catch block: the error toast is shown, the list is rolled back,
    the handler is over and no further request is sent. *)
Theorem dispatch_routing_and_failure (c : StatusChange) (st : OrderQueue.State) :
  let st' := OrderQueue.handleStatusChange c st in
  (currentOrderStatus c = PLACED ->
     OrderQueue.effects st'
       = OrderQueue.effects st ++
         [OrderQueue.AxiosPut (orderCustomId c) (newStatus c) (OrderQueue.vendorIdProp st)] /\
     OrderQueue.awaiting st'
       = OrderQueue.awaiting st ++ [OrderQueue.mkPending (OrderQueue.rendered st) c]) /\
  (currentOrderStatus c <> PLACED -> OrderQueue.stompConnected st = true ->
     OrderQueue.effects st'
       = OrderQueue.effects st ++
         [OrderQueue.StompPublish "/app/order.updateStatus" (orderCustomId c)
            (newStatus c) (OrderQueue.vendorIdProp st);
          OrderQueue.Toast "Order Updated" variant_success] /\
     OrderQueue.awaiting st' = OrderQueue.awaiting st) /\
  (currentOrderStatus c <> PLACED -> OrderQueue.stompConnected st = false ->
     OrderQueue.effects st'
       = OrderQueue.effects st ++
         [OrderQueue.ConsoleError; OrderQueue.Toast "Error" variant_destructive] /\
     OrderQueue.orders st' = OrderQueue.sortOrders (OrderQueue.rendered st) /\
     OrderQueue.awaiting st' = OrderQueue.awaiting st) /\
  (forall n p, OrderQueue.awaiting st !! n = Some p ->
     OrderQueue.effects (OrderQueue.settle n false st)
       = OrderQueue.effects st ++
         [OrderQueue.ConsoleError; OrderQueue.Toast "Error" variant_destructive] /\
     OrderQueue.orders (OrderQueue.settle n false st)
       = OrderQueue.sortOrders (OrderQueue.prevOrdersState p) /\
     OrderQueue.awaiting (OrderQueue.settle n false st)
       = delete n (OrderQueue.awaiting st)) /\
  (length (OrderQueue.transportRequests (OrderQueue.effects st'))
     <= S (length (OrderQueue.transportRequests (OrderQueue.effects st))))%nat /\
  (forall n ok,
     OrderQueue.transportRequests (OrderQueue.effects (OrderQueue.settle n ok st))
     = OrderQueue.transportRequests (OrderQueue.effects st)).
Proof.
  cbn zeta. split; [|split; [|split; [|split; [|split]]]].
  - intros H. now rewrite handleStatusChange_put.
  - intros H Hc. now rewrite handleStatusChange_publish.
  - intros H Hc. now rewrite handleStatusChange_disconnected.
  - intros n p H. now rewrite (settle_rejected n p).
  - destruct (Status_eqb (currentOrderStatus c) PLACED) eqn:E.
    + apply Status_eqb_eq in E. rewrite handleStatusChange_put by assumption.
      cbn. rewrite transportRequests_app, length_app. simpl. lia.
    + assert (currentOrderStatus c <> PLACED).
      { intros H. rewrite H in E. discriminate. }
      destruct (OrderQueue.stompConnected st) eqn:Hc.
      * rewrite handleStatusChange_publish by assumption.
        cbn. rewrite transportRequests_app, length_app. simpl. lia.
      * rewrite handleStatusChange_disconnected by assumption.
        cbn. rewrite transportRequests_app, length_app. simpl. lia.
  - intros n ok. unfold OrderQueue.settle.
    destruct (OrderQueue.awaiting st !! n); [|reflexivity].
    destruct ok; simpl; rewrite transportRequests_app; simpl; apply app_nil_r.
Qed.

(** C10: the handler looks at the current status only to choose the
    transport and never at the pair: for every pair of statuses, legal or
    not, with the transport of its path at hand, the list after the call is
    the optimistic update, the request carrying the new status is the
    effect emitted, and no error is reported.  The call itself reports an
    error only when a status other than PLACED meets a disconnected
    client. *)
Theorem handler_checks_no_legality (c : StatusChange) (st : OrderQueue.State) :
  currentOrderStatus c = PLACED \/ OrderQueue.stompConnected st = true ->
  let st' := OrderQueue.handleStatusChange c st in
  OrderQueue.orders st'
    = OrderQueue.optimisticUpdate (orderCustomId c) (newStatus c) (OrderQueue.orders st) /\
  (exists request rest,
     OrderQueue.effects st' = OrderQueue.effects st ++ request :: rest /\
     request = (if Status_eqb (currentOrderStatus c) PLACED
                then OrderQueue.AxiosPut (orderCustomId c) (newStatus c)
                       (OrderQueue.vendorIdProp st)
                else OrderQueue.StompPublish "/app/order.updateStatus"
                       (orderCustomId c) (newStatus c) (OrderQueue.vendorIdProp st)) /\
     ~ In (OrderQueue.Toast "Error" variant_destructive) (request :: rest)) /\
  (forall st0 : OrderQueue.State,
     In (OrderQueue.Toast "Error" variant_destructive)
        (OrderQueue.effects (OrderQueue.handleStatusChange c st0)) ->
     In (OrderQueue.Toast "Error" variant_destructive) (OrderQueue.effects st0) \/
     (currentOrderStatus c <> PLACED /\ OrderQueue.stompConnected st0 = false)).
Proof.
  intros Hready. cbn zeta.
  destruct (Status_eqb (currentOrderStatus c) PLACED) eqn:E.
  - apply Status_eqb_eq in E. rewrite handleStatusChange_put by assumption.
    split; [reflexivity|]. split.
    + do 2 eexists. split; [reflexivity|]. split; [reflexivity|].
      simpl. intros [H|[]]. discriminate.
    + intros st0. rewrite handleStatusChange_put by assumption. simpl.
      rewrite in_app_iff. simpl. intros [H|[H|[]]]; [auto|discriminate].
  - assert (Hne : currentOrderStatus c <> PLACED).
    { intros H. rewrite H in E. discriminate. }
    destruct Hready as [H|Hc]; [contradiction|].
    rewrite handleStatusChange_publish by assumption.
    split; [reflexivity|]. split.
    + do 2 eexists. split; [reflexivity|]. split; [reflexivity|].
      simpl. intros [H|[H|[]]]; discriminate.
    + intros st0. destruct (OrderQueue.stompConnected st0) eqn:Hc0; [|auto].
      rewrite handleStatusChange_publish by assumption. simpl.
      rewrite in_app_iff. simpl. intros [H|[H|[H|[]]]]; [auto|discriminate..].
Qed.

(** An illegal pair put to the handler: COMPLETED back to PLACED is
    applied to the list and published like any other change. *)
Lemma handler_checks_no_legality_witness :
  legal_edge COMPLETED PLACED = false /\
  OrderQueue.visibleStatus "ORD-B"
    (OrderQueue.orders
       (OrderQueue.handleStatusChange (mkStatusChange "ORD-B" COMPLETED PLACED)
          (Sample.queue [Sample.cooking]))) = [PLACED] /\
  exists request rest,
    OrderQueue.effects
      (OrderQueue.handleStatusChange (mkStatusChange "ORD-B" COMPLETED PLACED)
         (Sample.queue [Sample.cooking]))
      = [] ++ request :: rest /\
    request = OrderQueue.StompPublish "/app/order.updateStatus" "ORD-B" PLACED "v1" /\
    ~ In (OrderQueue.Toast "Error" variant_destructive) (request :: rest).
Proof.
  split; [reflexivity|].
  destruct (handler_checks_no_legality
              (mkStatusChange "ORD-B" COMPLETED PLACED)
              (Sample.queue [Sample.cooking])
              (or_intror eq_refl)) as (Ho & He & _).
  split; [rewrite Ho; reflexivity|exact He].
Defined.

(** C4 (counterexample): two PLACED orders are accepted one after the
    other, with a render after each click, both PUTs in flight; when the
    first PUT fails, the rollback also takes the second order back to
    PLACED although its own request is still in flight: the frame property
    fails. *)
Lemma rollback_disturbs_other_order :
  ~ OrderQueue.rollback_frame
      (OrderQueue.run
         [OrderQueue.Click (Sample.accept Sample.newer); OrderQueue.Render;
          OrderQueue.Click (Sample.accept Sample.older); OrderQueue.Render]
         (Sample.queue [Sample.newer; Sample.older]))
      0.
Proof.
  intros H.
  specialize (H _ eq_refl "ORD-A").
  assert (Hne : "ORD-A" <> "ORD-C") by discriminate.
  specialize (H Hne). vm_compute in H. discriminate H.
Qed.

(** C4 (amended): what a failed dispatch restores is the whole list of
    the render in which the handler was called, the list on screen before
    the optimistic update.  On the PUT path the handler suspends with that
    list; whenever its continuation runs after a rejection, whatever the
    list has become meanwhile, the list is again the one captured, for the
    order changed and for every other order alike.  On the publish path
    the failure is immediate and the list is the captured one as well. *)
Theorem rollback_restores_whole_snapshot (c : StatusChange) (st : OrderQueue.State) :
  OrderQueue.sortOrders (OrderQueue.rendered st) = OrderQueue.rendered st ->
  (currentOrderStatus c = PLACED ->
     OrderQueue.awaiting (OrderQueue.handleStatusChange c st)
       !! length (OrderQueue.awaiting st)
     = Some (OrderQueue.mkPending (OrderQueue.rendered st) c)) /\
  (forall (later : OrderQueue.State) (n : nat),
     OrderQueue.awaiting later !! n
       = Some (OrderQueue.mkPending (OrderQueue.rendered st) c) ->
     OrderQueue.orders (OrderQueue.settle n false later) = OrderQueue.rendered st) /\
  (currentOrderStatus c <> PLACED -> OrderQueue.stompConnected st = false ->
     OrderQueue.orders (OrderQueue.handleStatusChange c st) = OrderQueue.rendered st).
Proof.
  intros Hsorted. split; [|split].
  - intros H. rewrite handleStatusChange_put by assumption. simpl.
    rewrite lookup_app_r by lia. now rewrite Nat.sub_diag.
  - intros later n H. now rewrite (settle_rejected n _ later H).
  - intros H Hc. now rewrite handleStatusChange_disconnected.
Qed.

(** The scenario of the counterexample: after the failure of the first
    PUT the list is the snapshot response again, both orders PLACED. *)
Lemma rollback_restores_whole_snapshot_witness :
  OrderQueue.orders
    (OrderQueue.run
       [OrderQueue.Click (Sample.accept Sample.newer); OrderQueue.Render;
        OrderQueue.Click (Sample.accept Sample.older); OrderQueue.Render;
        OrderQueue.PutSettled 0 false]
       (Sample.queue [Sample.newer; Sample.older]))
  = [Sample.newer; Sample.older].
Proof.
  refine (proj1 (proj2
    (rollback_restores_whole_snapshot (Sample.accept Sample.newer)
       (Sample.queue [Sample.newer; Sample.older]) _)) _ 0%nat _).
  - reflexivity.
  - reflexivity.
Defined.

(** A broadcast event ingested while a PUT is in flight is discarded as
    well when that PUT fails afterwards: the list goes back to the one
    captured before the event. *)
Lemma rollback_discards_ingested_event :
  let st :=
    OrderQueue.run
      [OrderQueue.Click (Sample.accept Sample.newer); OrderQueue.Render;
       OrderQueue.Message Sample.olderPreparing; OrderQueue.Render]
      (Sample.queue [Sample.newer; Sample.older]) in
  OrderQueue.visibleStatus "ORD-A" (OrderQueue.orders st) = [PREPARING] /\
  OrderQueue.visibleStatus "ORD-A"
    (OrderQueue.orders (OrderQueue.step (OrderQueue.PutSettled 0 false) st))
  = [PLACED].
Proof. split; reflexivity. Qed.

(** ** Ingested events and the rollback *)

Lemma run_app (es1 es2 : list OrderQueue.Event) (st : OrderQueue.State) :
  OrderQueue.run (es1 ++ es2) st = OrderQueue.run es2 (OrderQueue.run es1 st).
Proof. apply fold_left_app. Qed.

Lemma step_quiet_orders (e : OrderQueue.Event) (st : OrderQueue.State) :
  OrderQueue.quiet e = true ->
  OrderQueue.orders (OrderQueue.step e st) = OrderQueue.orders st.
Proof.
  destruct e as [|c|n [|]|u|up]; try discriminate; intros _; simpl; auto.
  unfold OrderQueue.settle.
  now destruct (OrderQueue.awaiting st !! n).
Qed.

Lemma run_quiet_orders (es : list OrderQueue.Event) (st : OrderQueue.State) :
  forallb OrderQueue.quiet es = true ->
  OrderQueue.orders (OrderQueue.run es st) = OrderQueue.orders st.
Proof.
  revert st; induction es as [|e es IH]; intros st H; [reflexivity|].
  simpl in H. apply andb_true_iff in H as [He H].
  change (OrderQueue.run (e :: es) st) with (OrderQueue.run es (OrderQueue.step e st)).
  rewrite IH by exact H. now apply step_quiet_orders.
Qed.

(** C2 (counterexample): ORD-A is PLACED and is accepted, its PUT is in
    flight; the events PREPARING and READY_FOR_PICKUP for it arrive in
    order and the order is shown READY_FOR_PICKUP.  Then the PUT fails and
    the catch block puts back the list captured at the click: the final
    visible status is PLACED, and the record of the last event is gone
    from the list. *)
Lemma failed_put_discards_ingested_events :
  let st :=
    OrderQueue.run
      [OrderQueue.Click (Sample.accept Sample.older); OrderQueue.Render;
       OrderQueue.Message Sample.olderPreparing; OrderQueue.Render;
       OrderQueue.Message Sample.olderReady; OrderQueue.Render]
      (Sample.queue [Sample.older]) in
  length (OrderQueue.awaiting st) = 1%nat /\
  OrderQueue.visibleStatus "ORD-A" (OrderQueue.orders st) = [READY_FOR_PICKUP] /\
  OrderQueue.visibleStatus "ORD-A"
    (OrderQueue.orders (OrderQueue.step (OrderQueue.PutSettled 0 false) st))
    = [PLACED] /\
  ~ In Sample.olderReady
      (OrderQueue.orders (OrderQueue.step (OrderQueue.PutSettled 0 false) st)).
Proof.
  cbn zeta. repeat split. vm_compute. intros [H|[]]. discriminate H.
Qed.

(** C2 (amended): for an order present in the store (identifiers being
    distinct), ingesting a broadcast event replaces its record by the
    payload: the array element at the index found is overwritten, and
    afterwards the only record with that identifier is the payload itself,
    whatever optimistic update had been applied before, also while the
    request of that update is still awaited.  After two events for the
    same order, delivered in order, the record is the second payload, and
    it stays so along renders, changes of the connection and requests that
    succeed; on the customer tracker the order held is the last payload as
    well.  A request that fails afterwards puts back the list it captured
    at its click, whatever events were ingested in between. *)
Theorem ingest_overwrites_local_record
    (store : list Order) (local first second : Order) :
  List.NoDup (map id store) ->
  In local store ->
  id first = id local ->
  id second = id local ->
  (exists i old,
     store !! i = Some old /\ id old = id local /\
     OrderQueue.onMessage first store
       = OrderQueue.sortOrders (<[i := first]> store)) /\
  (In first (OrderQueue.onMessage first store) /\
   forall o, In o (OrderQueue.onMessage first store) ->
             id o = id local -> o = first) /\
  (forall cid ns o,
     In o (OrderQueue.onMessage first (OrderQueue.optimisticUpdate cid ns store)) ->
     id o = id local -> o = first) /\
  (In second (OrderQueue.onMessage second (OrderQueue.onMessage first store)) /\
   forall o,
     In o (OrderQueue.onMessage second (OrderQueue.onMessage first store)) ->
     id o = id local -> o = second /\ status o = status second) /\
  (forall (e1 e2 : OrderTrackingPage.OrderData) (st : OrderTrackingPage.State),
     OrderTrackingPage.order
       (OrderTrackingPage.onMessage e2 (OrderTrackingPage.onMessage e1 st))
     = Some e2) /\
  (forall (st : OrderQueue.State) (c : StatusChange),
     OrderQueue.orders st = store ->
     currentOrderStatus c = PLACED ->
     let st1 :=
       OrderQueue.run [OrderQueue.Click c; OrderQueue.Render; OrderQueue.Message first]
         st in
     OrderQueue.awaiting st1
       = OrderQueue.awaiting st ++ [OrderQueue.mkPending (OrderQueue.rendered st) c] /\
     In first (OrderQueue.orders st1) /\
     forall o, In o (OrderQueue.orders st1) -> id o = id local -> o = first) /\
  (forall (st : OrderQueue.State) (es1 es2 : list OrderQueue.Event),
     OrderQueue.orders st = store ->
     forallb OrderQueue.quiet es1 = true ->
     forallb OrderQueue.quiet es2 = true ->
     let st2 :=
       OrderQueue.run
         (OrderQueue.Message first :: es1 ++ OrderQueue.Message second :: es2) st in
     In second (OrderQueue.orders st2) /\
     forall o, In o (OrderQueue.orders st2) ->
               id o = id local -> o = second /\ status o = status second) /\
  (forall (st : OrderQueue.State) (n : nat) (p : OrderQueue.Pending)
          (es : list OrderQueue.Event),
     OrderQueue.awaiting st !! n = Some p ->
     Forall (fun e => exists u, e = OrderQueue.Message u) es ->
     OrderQueue.orders
       (OrderQueue.step (OrderQueue.PutSettled n false) (OrderQueue.run es st))
     = OrderQueue.sortOrders (OrderQueue.prevOrdersState p)).
Proof.
  intros Hnd Hin H1 H2.
  assert (Hl1 : id local = id first) by congruence.
  destruct (onMessage_payload first store local Hnd Hin Hl1) as [Hin1 Huniq1].
  assert (Hopt : forall cid ns o,
     In o (OrderQueue.onMessage first (OrderQueue.optimisticUpdate cid ns store)) ->
     id o = id local -> o = first).
  { intros cid ns o Ho Hid.
    assert (Hnd' : List.NoDup (map id (OrderQueue.optimisticUpdate cid ns store))).
    { eapply Permutation_NoDup; [symmetry; apply optimisticUpdate_ids|exact Hnd]. }
    set (local' := if String.eqb (orderId local) cid
                   then with_status local ns else local).
    assert (Hin' : In local' (OrderQueue.optimisticUpdate cid ns store)).
    { apply optimisticUpdate_In. exists local. auto. }
    assert (Hid' : id local' = id first).
    { subst local'. destruct (String.eqb (orderId local) cid); simpl; congruence. }
    destruct (onMessage_payload first _ local' Hnd' Hin' Hid') as [_ Hu].
    apply Hu; congruence. }
  assert (Htwo :
    In second (OrderQueue.onMessage second (OrderQueue.onMessage first store)) /\
    forall o,
      In o (OrderQueue.onMessage second (OrderQueue.onMessage first store)) ->
      id o = id local -> o = second /\ status o = status second).
  { assert (Hnd1 : List.NoDup (map id (OrderQueue.onMessage first store))).
    { eapply Permutation_NoDup; [symmetry; eapply onMessage_ids; eauto|exact Hnd]. }
    assert (H12 : id first = id second) by congruence.
    destruct (onMessage_payload second _ first Hnd1 Hin1 H12) as [Hin2 Huniq2].
    split; [exact Hin2|].
    intros o Ho Hid. assert (o = second) as -> by (apply Huniq2; congruence).
    auto. }
  split; [|split; [|split; [|split; [|split; [|split; [|split]]]]]].
  - destruct (onMessage_existing first store local Hin Hl1) as (i & old & ? & ? & ?).
    exists i, old. repeat split; congruence.
  - split; [exact Hin1|]. intros o Ho Hid. apply Huniq1; congruence.
  - exact Hopt.
  - exact Htwo.
  - intros e1 e2 st. unfold OrderTrackingPage.onMessage.
    now destruct (Js.findIndex _ OrderTrackingPage.orderStatuses).
  - intros st c Hst Hc. cbn zeta.
    change (OrderQueue.run [OrderQueue.Click c; OrderQueue.Render;
                            OrderQueue.Message first] st)
      with (OrderQueue.step (OrderQueue.Message first)
              (OrderQueue.reRender (OrderQueue.handleStatusChange c st))).
    rewrite (handleStatusChange_put c st Hc). cbn. rewrite Hst.
    split; [reflexivity|]. split; [|apply Hopt].
    unfold OrderQueue.onMessage.
    destruct (Js.findIndex _ _) as [i|] eqn:Hi.
    + apply sortOrders_In, In_insert.
      apply findIndex_Some in Hi as (x & Hx & _). eapply lookup_lt_Some; eauto.
    + apply sortOrders_In. now left.
  - intros st es1 es2 Hst Hq1 Hq2. cbn zeta.
    change (OrderQueue.run
              (OrderQueue.Message first :: es1 ++ OrderQueue.Message second :: es2) st)
      with (OrderQueue.run (es1 ++ OrderQueue.Message second :: es2)
              (OrderQueue.step (OrderQueue.Message first) st)).
    rewrite run_app.
    change (OrderQueue.run (OrderQueue.Message second :: es2) ?s)
      with (OrderQueue.run es2 (OrderQueue.step (OrderQueue.Message second) s)).
    rewrite (run_quiet_orders es2 _ Hq2).
    change (OrderQueue.orders (OrderQueue.step (OrderQueue.Message second) ?s))
      with (OrderQueue.onMessage second (OrderQueue.orders s)).
    rewrite (run_quiet_orders es1 _ Hq1).
    change (OrderQueue.orders (OrderQueue.step (OrderQueue.Message first) st))
      with (OrderQueue.onMessage first (OrderQueue.orders st)).
    rewrite Hst. exact Htwo.
  - intros st n p es Hp Hes.
    assert (Haw : OrderQueue.awaiting (OrderQueue.run es st) = OrderQueue.awaiting st).
    { clear Hp. revert st. induction Hes as [|e es [u ->] _ IH]; intros st;
        [reflexivity|].
      change (OrderQueue.run (OrderQueue.Message u :: es) st)
        with (OrderQueue.run es (OrderQueue.step (OrderQueue.Message u) st)).
      now rewrite IH. }
    simpl. rewrite (settle_rejected n p); [reflexivity|]. now rewrite Haw.
Qed.

(** The scenario of C2 on a concrete queue: PLACED to PREPARING, then
    PREPARING to READY_FOR_PICKUP, each followed by a render; the record
    shown at the end is the second payload, READY_FOR_PICKUP. *)
Lemma ingest_overwrites_local_record_witness :
  let st2 :=
    OrderQueue.run
      [OrderQueue.Message Sample.olderPreparing; OrderQueue.Render;
       OrderQueue.Message Sample.olderReady; OrderQueue.Render]
      (Sample.queue [Sample.newer; Sample.cooking; Sample.older]) in
  In Sample.olderReady (OrderQueue.orders st2) /\
  forall o,
    In o (OrderQueue.orders st2) ->
    id o = id Sample.older ->
    o = Sample.olderReady /\ status o = READY_FOR_PICKUP.
Proof.
  refine (proj1 (proj2 (proj2 (proj2 (proj2 (proj2 (proj2
    (ingest_overwrites_local_record
       (OrderQueue.orders (Sample.queue [Sample.newer; Sample.cooking; Sample.older]))
       Sample.older Sample.olderPreparing Sample.olderReady _ _ _ _)))))))
    (Sample.queue [Sample.newer; Sample.cooking; Sample.older])
    [OrderQueue.Render] [OrderQueue.Render] eq_refl eq_refl eq_refl).
  - vm_compute. repeat constructor; simpl; intuition discriminate.
  - vm_compute. auto.
  - reflexivity.
  - reflexivity.
Defined.

(** C5 (counterexample): ORD-A is PLACED; it is accepted (PUT in flight,
    shown as PREPARING after the render), then marked ready while the
    client is disconnected.  The second call fails and rolls back to what
    it captured, the result of the first update: the order is shown as
    PREPARING, not as PLACED, and the first request is still unconfirmed. *)
Lemma second_rollback_keeps_first_mutation :
  let st0 := Sample.queue [Sample.older] in
  let st3 :=
    OrderQueue.run
      [OrderQueue.Click (Sample.accept Sample.older); OrderQueue.Render;
       OrderQueue.Stomp false;
       OrderQueue.Click (Sample.markReady Sample.olderPreparing);
       OrderQueue.Render] st0 in
  OrderQueue.visibleStatus "ORD-A" (OrderQueue.orders st0) = [PLACED] /\
  length (OrderQueue.awaiting st3) = 1%nat /\
  In (OrderQueue.Toast "Error" variant_destructive) (OrderQueue.effects st3) /\
  OrderQueue.visibleStatus "ORD-A" (OrderQueue.orders st3) = [PREPARING] /\
  OrderQueue.orders st3 <> OrderQueue.orders st0.
Proof.
  cbn zeta. split; [reflexivity|]. split; [reflexivity|].
  split; [vm_compute; tauto|]. split; [reflexivity|].
  vm_compute. discriminate.
Qed.

(** C5 (amended): the list a call captures is the list of the latest
    render.  After a first update that has been dispatched, rendered and
    not yet confirmed, a second call captures the result of the first;
    when the second fails, by a rejected PUT or at once on a disconnected
    client, its rollback leaves the list as the first update made it. *)
Theorem second_snapshot_is_first_result (c1 c2 : StatusChange) (st : OrderQueue.State) :
  currentOrderStatus c1 = PLACED \/ OrderQueue.stompConnected st = true ->
  let st1 := OrderQueue.reRender (OrderQueue.handleStatusChange c1 st) in
  let firstResult :=
    OrderQueue.optimisticUpdate (orderCustomId c1) (newStatus c1) (OrderQueue.orders st) in
  OrderQueue.rendered st1 = firstResult /\
  (currentOrderStatus c2 = PLACED ->
     OrderQueue.awaiting (OrderQueue.handleStatusChange c2 st1)
       !! length (OrderQueue.awaiting st1)
     = Some (OrderQueue.mkPending firstResult c2) /\
     OrderQueue.orders
       (OrderQueue.settle (length (OrderQueue.awaiting st1)) false
          (OrderQueue.handleStatusChange c2 st1))
     = firstResult) /\
  (currentOrderStatus c2 <> PLACED ->
     OrderQueue.orders
       (OrderQueue.handleStatusChange c2 (OrderQueue.step (OrderQueue.Stomp false) st1))
     = firstResult).
Proof.
  intros Hready. cbn zeta.
  assert (H1 : OrderQueue.orders (OrderQueue.handleStatusChange c1 st)
               = OrderQueue.optimisticUpdate (orderCustomId c1) (newStatus c1)
                   (OrderQueue.orders st)).
  { destruct (Status_eqb (currentOrderStatus c1) PLACED) eqn:E.
    - apply Status_eqb_eq in E. now rewrite handleStatusChange_put.
    - assert (currentOrderStatus c1 <> PLACED).
      { intros H. rewrite H in E. discriminate. }
      destruct Hready as [H'|Hc]; [contradiction|].
      now rewrite handleStatusChange_publish. }
  split; [exact H1|]. split.
  - intros H2.
    assert (Hp : OrderQueue.awaiting
                   (OrderQueue.handleStatusChange c2
                      (OrderQueue.reRender (OrderQueue.handleStatusChange c1 st)))
                   !! length (OrderQueue.awaiting
                                (OrderQueue.reRender (OrderQueue.handleStatusChange c1 st)))
                 = Some (OrderQueue.mkPending
                           (OrderQueue.optimisticUpdate (orderCustomId c1) (newStatus c1)
                              (OrderQueue.orders st)) c2)).
    { rewrite (handleStatusChange_put c2) by assumption. simpl.
      rewrite lookup_app_r by lia. rewrite Nat.sub_diag. simpl. now rewrite H1. }
    split; [exact Hp|].
    rewrite (settle_rejected _ _ _ Hp). simpl.
    apply sortOrders_optimisticUpdate.
  - intros H2. rewrite handleStatusChange_disconnected by (assumption || reflexivity).
    simpl. rewrite H1. apply sortOrders_optimisticUpdate.
Qed.

(** The scenario of the counterexample, read off the theorem: the second
    call leaves the list at the first update's result. *)
Lemma second_snapshot_is_first_result_witness :
  OrderQueue.orders
    (OrderQueue.run
       [OrderQueue.Click (Sample.accept Sample.older); OrderQueue.Render;
        OrderQueue.Stomp false;
        OrderQueue.Click (Sample.markReady Sample.olderPreparing)]
       (Sample.queue [Sample.older]))
  = [Sample.olderPreparing].
Proof.
  refine (proj2 (proj2
    (second_snapshot_is_first_result (Sample.accept Sample.older)
       (Sample.markReady Sample.olderPreparing)
       (Sample.queue [Sample.older]) (or_introl eq_refl))) _).
  discriminate.
Defined.

(** ** Checkout *)

Lemma subtotal_lineItemsSum (checkoutItems : list CheckoutPage.CheckoutItem) :
  CheckoutPage.subtotal checkoutItems
  = CheckoutPage.lineItemsSum
      (map (fun item => CheckoutPage.mkPayloadItem (CheckoutPage.id item)
                          (CheckoutPage.quantity item) (CheckoutPage.price item))
           checkoutItems).
Proof.
  unfold CheckoutPage.subtotal, CheckoutPage.lineItemsSum.
  generalize (Double.ofZ 0).
  induction checkoutItems as [|item l IH]; intros sum; simpl; [reflexivity|].
  apply IH.
Qed.

Lemma handlePlaceOrder_Posted user checkoutItems currentShopId paymentMethod
    renderTime now payload :
  CheckoutPage.handlePlaceOrder user checkoutItems currentShopId paymentMethod
    renderTime now = CheckoutPage.Posted payload ->
  CheckoutPage.status payload = PLACED /\
  CheckoutPage.totalAmount payload = CheckoutPage.total checkoutItems /\
  CheckoutPage.items payload
    = map (fun item => CheckoutPage.mkPayloadItem (CheckoutPage.id item)
                         (CheckoutPage.quantity item) (CheckoutPage.price item))
          checkoutItems.
Proof.
  unfold CheckoutPage.handlePlaceOrder.
  destruct user as [u|]; [|discriminate].
  destruct (CheckoutPage.truthyString (CheckoutPage.userId u)); [|discriminate].
  destruct (CheckoutPage.truthyString (CheckoutPage.userName u)); [|discriminate].
  destruct (CheckoutPage.truthyString (CheckoutPage.mobileNumber u)); [|discriminate].
  destruct (CheckoutPage.truthyString (CheckoutPage.email u)); [|discriminate].
  destruct checkoutItems as [|item rest]; [discriminate|].
  destruct (CheckoutPage.truthyNumber currentShopId); [|discriminate].
  intros [= <-]. auto.
Qed.

(** C8 (counterexample): a cart of one item at 100, quantity 1, is posted
    with status PLACED and a total of 105: the sum over the line items is
    100, the total carries the 5% tax on top. *)
Lemma checkout_total_includes_tax :
  exists payload,
    CheckoutPage.handlePlaceOrder (Some Sample.customer) [Sample.dosa] (Some 3)
      "pickup" 0 60000 = CheckoutPage.Posted payload /\
    CheckoutPage.status payload = PLACED /\
    CheckoutPage.lineItemsSum (CheckoutPage.items payload) = Double.ofZ 100 /\
    CheckoutPage.totalAmount payload = Double.ofZ 105 /\
    CheckoutPage.totalAmount payload
      <> CheckoutPage.lineItemsSum (CheckoutPage.items payload).
Proof.
  eexists. split; [reflexivity|]. repeat split. vm_compute. discriminate.
Qed.

(** C8 (amended): every order posted by the checkout has status PLACED and
    a total equal to the sum over its line items of snapshot price times
    quantity plus [Math.round] of that sum times 0.05, all in the
    arithmetic of JavaScript numbers; the line items carry the identifier,
    the quantity and the price of the items of the cart. *)
Theorem checkout_order_placed_total_with_tax
    (user : option CheckoutPage.User) (checkoutItems : list CheckoutPage.CheckoutItem)
    (currentShopId : option Z) (paymentMethod : string) (renderTime now : Z)
    (payload : CheckoutPage.OrderPayload) :
  CheckoutPage.handlePlaceOrder user checkoutItems currentShopId paymentMethod
    renderTime now = CheckoutPage.Posted payload ->
  let sum := CheckoutPage.lineItemsSum (CheckoutPage.items payload) in
  CheckoutPage.status payload = PLACED /\
  CheckoutPage.totalAmount payload
    = Double.add sum (Double.Math_round (Double.mul sum (Double.decimal 5 100))) /\
  map CheckoutPage.productId (CheckoutPage.items payload)
    = map CheckoutPage.id checkoutItems /\
  map CheckoutPage.payloadQuantity (CheckoutPage.items payload)
    = map CheckoutPage.quantity checkoutItems /\
  map CheckoutPage.priceAtOrder (CheckoutPage.items payload)
    = map CheckoutPage.price checkoutItems.
Proof.
  intros H. apply handlePlaceOrder_Posted in H as (Hs & Ht & Hi). cbn zeta.
  split; [exact Hs|]. split.
  - rewrite Ht, Hi. unfold CheckoutPage.total, CheckoutPage.taxes.
    now rewrite subtotal_lineItemsSum.
  - rewrite Hi, !map_map. repeat split.
Qed.

(** The cart of the counterexample, read off the theorem. *)
Lemma checkout_order_placed_total_with_tax_witness :
  exists payload,
    CheckoutPage.handlePlaceOrder (Some Sample.customer) [Sample.dosa] (Some 3)
      "pickup" 0 60000 = CheckoutPage.Posted payload /\
    CheckoutPage.status payload = PLACED /\
    CheckoutPage.totalAmount payload
      = Double.add (CheckoutPage.lineItemsSum (CheckoutPage.items payload))
          (Double.Math_round
             (Double.mul (CheckoutPage.lineItemsSum (CheckoutPage.items payload))
                (Double.decimal 5 100))).
Proof.
  eexists. split; [reflexivity|].
  refine (let H := checkout_order_placed_total_with_tax
                     (Some Sample.customer) [Sample.dosa] (Some 3) "pickup" 0 60000
                     _ eq_refl in
          conj (proj1 H) (proj1 (proj2 H))).
Defined.

(** Prices with two decimals: three thalis at 209.94 and three lassis at
    20.06 add up to 689.9999999999999 (6069304185323519 * 2^-43), the tax
    is [Math.round(34.49999999999999)] = 34, and the posted total is
    723.9999999999999 (6368371348078591 * 2^-43), not 725. *)
Lemma checkout_two_decimal_prices :
  CheckoutPage.subtotal [Sample.thali; Sample.lassi]
    = S754_finite false 6069304185323519 (-43) /\
  CheckoutPage.taxes [Sample.thali; Sample.lassi] = Double.ofZ 34 /\
  CheckoutPage.total [Sample.thali; Sample.lassi]
    = S754_finite false 6368371348078591 (-43) /\
  CheckoutPage.total [Sample.thali; Sample.lassi] <> Double.ofZ 725 /\
  exists payload,
    CheckoutPage.handlePlaceOrder (Some Sample.customer) [Sample.thali; Sample.lassi]
      (Some 3) "pickup" 0 60000 = CheckoutPage.Posted payload /\
    CheckoutPage.totalAmount payload = S754_finite false 6368371348078591 (-43).
Proof.
  repeat split; try (vm_compute; reflexivity).
  - vm_compute. discriminate.
  - eexists. split; [reflexivity|]. vm_compute. reflexivity.
Qed.

(** [Math.round] on halves and near zero: 2.5 gives 3, -2.5 gives -2, 0.4
    gives 0 and -0.5 gives the negative zero. *)
Lemma Math_round_halves :
  Double.Math_round (Double.decimal 25 10) = Double.ofZ 3 /\
  Double.Math_round (Double.decimal (-25) 10) = Double.ofZ (-2) /\
  Double.Math_round (Double.decimal 4 10) = S754_zero false /\
  Double.Math_round (Double.decimal (-5) 10) = S754_zero true /\
  Double.Math_round (Double.ofZ 7) = Double.ofZ 7.
Proof. repeat split. Qed.

(** ** QR scanner *)







(** A ready order is scanned by a scanner that is given no vendor
    identifier: the body carries [null], the order is COMPLETED
    afterwards; scanned once more, it stays as it is and the scanner
    reports a failure; a cooking order is left cooking. *)
Lemma qr_scan_ready_order :
  let StringToNumber := fun _ : string => S754_nan in
  let scan := QRCodeScanner.scan StringToNumber None in
  QRCodeScanner.requests (snd (scan "ORD-Z" [Sample.cooking; Sample.waiting]))
    = [QRCodeScanner.mkRequest "ORD-Z" "PUT" COMPLETED None] /\
  map status [Sample.cooking; Sample.waiting] = [PREPARING; READY_FOR_PICKUP] /\
  map status (fst (scan "ORD-Z" [Sample.cooking; Sample.waiting]))
    = [PREPARING; COMPLETED] /\
  QRCodeScanner.toasts (snd (scan "ORD-Z" [Sample.cooking; Sample.waiting]))
    = [("QR Code Scanned", variant_default); ("Order Completed", variant_success)] /\
  map status
    (fst (scan "ORD-Z" (fst (scan "ORD-Z" [Sample.cooking; Sample.waiting]))))
    = [PREPARING; COMPLETED] /\
  QRCodeScanner.toasts
    (snd (scan "ORD-Z" (fst (scan "ORD-Z" [Sample.cooking; Sample.waiting]))))
    = [("QR Code Scanned", variant_default);
       ("Order Update Failed", variant_destructive)] /\
  map status (fst (scan "ORD-B" [Sample.cooking; Sample.waiting]))
    = [PREPARING; READY_FOR_PICKUP] /\
  QRCodeScanner.toasts (snd (scan "ORD-B" [Sample.cooking; Sample.waiting]))
    = [("QR Code Scanned", variant_default);
       ("Order Update Failed", variant_destructive)].
Proof. repeat split. Qed.

(** A response that is [ok] but whose body is not JSON ends in the failure
    toast, as a rejected [fetch] does. *)
Lemma qr_ok_response_without_json :
  QRCodeScanner.toasts
    (QRCodeScanner.updateOrderStatusToCompleted_resume
       (QRCodeScanner.Response true false))
    = [("Order Update Failed", variant_destructive)] /\
  QRCodeScanner.toasts
    (QRCodeScanner.updateOrderStatusToCompleted_resume QRCodeScanner.Rejected)
    = [("Order Update Failed", variant_destructive)] /\
  QRCodeScanner.toasts
    (QRCodeScanner.updateOrderStatusToCompleted_resume
       (QRCodeScanner.Response true true))
    = [("Order Completed", variant_success)].
Proof. repeat split. Qed.

(** * Further properties of the components *)

(** ** Sorting a list of PLACED orders *)

Section SortedOutput.
Context {A : Type} (comparefn : A -> A -> Z).
Hypothesis comparefn_asym : forall a b, 0 < comparefn a b -> ~ 0 < comparefn b a.

Lemma Sorted_snoc (R : A -> A -> Prop) (l : list A) (y x : A) :
  Sorted R (l ++ [y]) -> R y x -> Sorted R ((l ++ [y]) ++ [x]).
Proof.
  induction l as [|a l IH]; intros Hs Hr; simpl in *.
  - repeat constructor. exact Hr.
  - apply Sorted_inv in Hs as [Hs Hhd]. constructor; [auto|].
    destruct l as [|b l]; simpl in *; apply HdRel_inv in Hhd; now constructor.
Qed.

Lemma settled_rev_Sorted (r : list A) :
  Js.settled comparefn r -> Sorted (fun a b => comparefn a b <= 0) (rev r).
Proof.
  induction r as [|x rest IH]; [constructor|].
  intros [Hhead Hrest]. specialize (IH Hrest).
  destruct rest as [|y rest']; [repeat constructor|].
  change (rev (x :: y :: rest')) with ((rev rest' ++ [y]) ++ [x]).
  apply Sorted_snoc; [exact IH|]. now apply Z.ltb_ge.
Qed.

Lemma sort_Sorted (l : list A) :
  Sorted (fun a b => comparefn a b <= 0) (Js.sort comparefn l).
Proof.
  unfold Js.sort. apply settled_rev_Sorted, sort_fold_settled; [assumption|exact I].
Qed.
End SortedOutput.

Lemma Sorted_placed_newest_first (l : list Order) :
  (forall o, In o l -> status o = PLACED) ->
  Sorted (fun a b => OrderQueue.compareOrders a b <= 0) l ->
  StronglySorted (fun a b => orderTime b <= orderTime a) l.
Proof.
  intros Hp Hs. apply Sorted_StronglySorted.
  - intros a b c Hab Hbc. lia.
  - induction Hs as [|a l Hs IH Hhd]; constructor.
    + apply IH. intros o Ho. apply Hp. now right.
    + destruct Hhd as [|b l Hab]; constructor.
      unfold OrderQueue.compareOrders in Hab.
      rewrite (Hp a), (Hp b) in Hab by (simpl; auto). simpl in Hab. lia.
Qed.

(** X5: when every order of the list is PLACED, [sortOrders] lists them
    newest first: each order is at least as recent as all that follow. *)
Theorem sortOrders_all_placed_newest_first (l : list Order) :
  (forall o, In o l -> status o = PLACED) ->
  OrderQueue.pendingOrders (OrderQueue.sortOrders l) = OrderQueue.sortOrders l /\
  StronglySorted (fun a b => orderTime b <= orderTime a) (OrderQueue.sortOrders l).
Proof.
  intros Hp.
  assert (Hp' : forall o, In o (OrderQueue.sortOrders l) -> status o = PLACED).
  { intros o Ho. apply Hp. now apply sortOrders_In. }
  split.
  - unfold OrderQueue.pendingOrders.
    apply forallb_filter_id, forallb_forall.
    intros o Ho. rewrite (Hp' o Ho). reflexivity.
  - apply Sorted_placed_newest_first; [exact Hp'|].
    apply sort_Sorted, compareOrders_asym.
Qed.

Lemma sortOrders_all_placed_newest_first_witness :
  OrderQueue.sortOrders [Sample.older; Sample.newer] = [Sample.newer; Sample.older] /\
  StronglySorted (fun a b => orderTime b <= orderTime a)
    (OrderQueue.sortOrders [Sample.older; Sample.newer]).
Proof.
  split; [reflexivity|].
  refine (proj2 (sortOrders_all_placed_newest_first [Sample.older; Sample.newer] _)).
  intros o [<-|[<-|[]]]; reflexivity.
Defined.

(** ** The vendor queue: events for known and unknown orders *)

Lemma findIndex_None_iff_ids (u : Order) (prev : list Order) :
  Js.findIndex (fun order => String.eqb (id order) (id u)) prev = None <->
  ~ In (id u) (map id prev).
Proof.
  split.
  - intros H Hin. apply in_map_iff in Hin as (o & Hid & Ho).
    pose proof (findIndex_None _ _ H o Ho) as Hf. simpl in Hf.
    rewrite Hid, String.eqb_refl in Hf. discriminate.
  - intros H. destruct (Js.findIndex _ prev) as [i|] eqn:E; [|reflexivity].
    exfalso. apply findIndex_Some in E as (o & Ho & Hp & _).
    apply String.eqb_eq in Hp. apply H. rewrite <- Hp.
    apply in_map. eapply lookup_In; eauto.
Qed.

Lemma onMessage_known_unknown (u : Order) (prev : list Order) :
  (~ In (id u) (map id prev) ->
     OrderQueue.onMessage u prev = OrderQueue.sortOrders (u :: prev) /\
     Permutation (OrderQueue.onMessage u prev) (u :: prev)) /\
  (In (id u) (map id prev) ->
     length (OrderQueue.onMessage u prev) = length prev /\
     Permutation (map id (OrderQueue.onMessage u prev)) (map id prev)).
Proof.
  split.
  - intros H. apply findIndex_None_iff_ids in H.
    unfold OrderQueue.onMessage. rewrite H.
    split; [reflexivity|apply sortOrders_Permutation].
  - intros H. apply in_map_iff in H as (local & Hid & Hin).
    split; [|now apply (onMessage_ids u prev local)].
    rewrite <- (length_map id), <- (length_map id prev).
    apply Permutation_length. now apply (onMessage_ids u prev local).
Qed.

(** X8: ingesting the same event twice leaves the list with the orders it
    has after the first time, each as often, identifiers being distinct:
    the second time the event finds its own record and replaces it by
    itself, and the sort only rearranges. *)
Theorem onMessage_idempotent (u : Order) (prev : list Order) :
  List.NoDup (map id prev) ->
  Permutation (OrderQueue.onMessage u (OrderQueue.onMessage u prev))
              (OrderQueue.onMessage u prev) /\
  length (OrderQueue.onMessage u (OrderQueue.onMessage u prev))
    = length (OrderQueue.onMessage u prev) /\
  (forall o, In o (OrderQueue.onMessage u (OrderQueue.onMessage u prev))
             <-> In o (OrderQueue.onMessage u prev)).
Proof.
  intros Hnd.
  assert (H1 : List.NoDup (map id (OrderQueue.onMessage u prev)) /\
               In u (OrderQueue.onMessage u prev)).
  { destruct (in_dec string_dec (id u) (map id prev)) as [Hin|Hnin].
    - apply in_map_iff in Hin as (local & Hid & Hin). split.
      + eapply Permutation_NoDup; [symmetry; eapply onMessage_ids; eauto|exact Hnd].
      + now apply (onMessage_payload u prev local).
    - destruct (proj1 (onMessage_known_unknown u prev) Hnin) as [_ Hp].
      split.
      + eapply Permutation_NoDup; [symmetry; apply Permutation_map, Hp|].
        simpl. now constructor.
      + eapply Permutation_in; [symmetry; exact Hp|now left]. }
  destruct H1 as [Hnd1 Hin1].
  assert (Hperm : Permutation (OrderQueue.onMessage u (OrderQueue.onMessage u prev))
                              (OrderQueue.onMessage u prev)).
  { destruct (onMessage_existing u _ u Hin1 eq_refl) as (i & old & Hold & Hid & ->).
    assert (old = u) as ->.
    { apply list_elem_of_In, list_elem_of_lookup in Hin1 as [k Hk].
      assert (i = k) as ->
        by (apply (NoDup_map_lookup id _ i k old u Hnd1 Hold Hk Hid)).
      congruence. }
    rewrite list_insert_id by exact Hold. apply sortOrders_Permutation. }
  split; [exact Hperm|]. split; [now apply Permutation_length|].
  intros o. split; apply Permutation_in; [exact Hperm|now symmetry].
Qed.

Lemma onMessage_idempotent_witness :
  Permutation
    (OrderQueue.onMessage Sample.olderPreparing
       (OrderQueue.onMessage Sample.olderPreparing [Sample.newer; Sample.older]))
    (OrderQueue.onMessage Sample.olderPreparing [Sample.newer; Sample.older]).
Proof.
  apply onMessage_idempotent.
  repeat constructor; simpl; intuition discriminate.
Defined.

(** ** The vendor queue: what the optimistic update touches *)

Lemma optimisticUpdate_facts (cid : string) (ns : Status) (prev : list Order) :
  length (OrderQueue.optimisticUpdate cid ns prev) = length prev /\
  Permutation (map id (OrderQueue.optimisticUpdate cid ns prev)) (map id prev) /\
  (forall o, In o (OrderQueue.optimisticUpdate cid ns prev) ->
     exists o0, In o0 prev /\ o = with_status o0 (status o) /\
       (orderId o0 = cid /\ status o = ns \/ orderId o0 <> cid /\ o = o0)) /\
  (forall o0, In o0 prev -> orderId o0 <> cid ->
     In o0 (OrderQueue.optimisticUpdate cid ns prev)).
Proof.
  split; [|split; [apply optimisticUpdate_ids|split]].
  - unfold OrderQueue.optimisticUpdate, OrderQueue.sortOrders.
    now rewrite sort_length, length_map.
  - intros o Ho. apply optimisticUpdate_In in Ho as (o0 & Hin & ->).
    exists o0. split; [exact Hin|].
    destruct (String.eqb (orderId o0) cid) eqn:E.
    + apply String.eqb_eq in E. split; [reflexivity|left; auto].
    + apply String.eqb_neq in E. split; [symmetry; apply with_status_same|right; auto].
  - intros o0 Hin Hne. apply optimisticUpdate_In. exists o0. split; [exact Hin|].
    apply String.eqb_neq in Hne. now rewrite Hne.
Qed.

(** With the transport of its path at hand, the list after a call is the
    optimistic update. *)
Lemma handler_no_check_orders (c : StatusChange) (st : OrderQueue.State) :
  currentOrderStatus c = PLACED \/ OrderQueue.stompConnected st = true ->
  OrderQueue.orders (OrderQueue.handleStatusChange c st)
    = OrderQueue.optimisticUpdate (orderCustomId c) (newStatus c) (OrderQueue.orders st) /\
  OrderQueue.rendered (OrderQueue.handleStatusChange c st) = OrderQueue.rendered st.
Proof.
  intros Hready.
  destruct (Status_eqb (currentOrderStatus c) PLACED) eqn:E.
  - apply Status_eqb_eq in E. now rewrite handleStatusChange_put.
  - assert (currentOrderStatus c <> PLACED).
    { intros H. rewrite H in E. discriminate. }
    destruct Hready as [H'|Hc]; [contradiction|].
    now rewrite handleStatusChange_publish.
Qed.

(** X10: the accept, mark-ready and mark-completed buttons: for an order on
    screen, with the transport of its path at hand, the click leaves the
    order in the list with the requested status and every order with
    another public identifier as it was. *)
Theorem button_click_sets_requested_status
    (st : OrderQueue.State) (order : Order) (calls : list StatusChange)
    (c : StatusChange) :
  In (order, calls) (OrderQueue.render (OrderQueue.orders st)) ->
  In c calls ->
  newStatus c <> REJECTED ->
  currentOrderStatus c = PLACED \/ OrderQueue.stompConnected st = true ->
  legal_edge (status order) (newStatus c) = true /\
  In (with_status order (newStatus c))
     (OrderQueue.orders (OrderQueue.handleStatusChange c st)) /\
  (forall other, In other (OrderQueue.orders st) -> orderId other <> orderId order ->
     In other (OrderQueue.orders (OrderQueue.handleStatusChange c st))).
Proof.
  intros Hcard Hc Hnr Hready.
  apply render_In in Hcard as [Hin ->].
  assert (Hcid : orderCustomId c = orderId order /\
                 legal_edge (status order) (newStatus c) = true).
  { destruct (status order) eqn:Hs; simpl in Hc;
      repeat (destruct Hc as [<-|Hc]; [simpl in *; try contradiction; auto|]);
      destruct Hc. }
  destruct Hcid as [Hcid Hlegal].
  destruct (handler_no_check_orders c st Hready) as [Ho _].
  split; [exact Hlegal|]. rewrite Ho, Hcid. split.
  - now apply optimisticUpdate_sets_status.
  - intros other Hother Hne.
    now apply optimisticUpdate_facts.
Qed.

Lemma button_click_sets_requested_status_witness :
  In (with_status Sample.cooking READY_FOR_PICKUP)
     (OrderQueue.orders
        (OrderQueue.handleStatusChange (Sample.markReady Sample.cooking)
           (Sample.queue [Sample.newer; Sample.cooking]))) /\
  (forall other,
     In other (OrderQueue.orders (Sample.queue [Sample.newer; Sample.cooking])) ->
     orderId other <> orderId Sample.cooking ->
     In other
        (OrderQueue.orders
           (OrderQueue.handleStatusChange (Sample.markReady Sample.cooking)
              (Sample.queue [Sample.newer; Sample.cooking])))).
Proof.
  refine (proj2 (button_click_sets_requested_status
            (Sample.queue [Sample.newer; Sample.cooking]) Sample.cooking
            [Sample.markReady Sample.cooking] (Sample.markReady Sample.cooking)
            _ _ _ _)).
  - simpl. auto.
  - simpl. auto.
  - discriminate.
  - right. reflexivity.
Defined.

(** ** The vendor queue: requests along a run *)

Lemma step_effects_grow (e : OrderQueue.Event) (st : OrderQueue.State) :
  exists es, OrderQueue.effects (OrderQueue.step e st) = OrderQueue.effects st ++ es /\
    (length (OrderQueue.transportRequests es)
     <= QueueRuns.clicks [e])%nat.
Proof.
  destruct e as [|c|n ok|u|up]; simpl.
  - exists []. now rewrite app_nil_r.
  - unfold OrderQueue.handleStatusChange.
    destruct (Status_eqb (currentOrderStatus c) PLACED);
      [|destruct (OrderQueue.stompConnected _)]; simpl;
      eexists; (split; [reflexivity|unfold QueueRuns.clicks; simpl; lia]).
  - unfold OrderQueue.settle. destruct (OrderQueue.awaiting st !! n).
    + destruct ok; simpl; eexists; (split; [reflexivity|unfold QueueRuns.clicks; simpl; lia]).
    + exists []. now rewrite app_nil_r.
  - eexists. split; [reflexivity|unfold QueueRuns.clicks; simpl; lia].
  - exists []. now rewrite app_nil_r.
Qed.

(** X11: along every run the effects only grow, and the requests sent (PUT or
    publish) are at most one per call of the handler: neither a failure
    nor an answer nor a broadcast event makes the component send again. *)
Theorem run_sends_at_most_one_request_per_click
    (es : list OrderQueue.Event) (st : OrderQueue.State) :
  exists emitted,
    OrderQueue.effects (OrderQueue.run es st) = OrderQueue.effects st ++ emitted /\
    (length (OrderQueue.transportRequests emitted) <= QueueRuns.clicks es)%nat.
Proof.
  revert st; induction es as [|e es IH]; intros st.
  - exists []. simpl. now rewrite app_nil_r.
  - simpl. destruct (step_effects_grow e st) as (e1 & He1 & Hn1).
    destruct (IH (OrderQueue.step e st)) as (e2 & He2 & Hn2).
    exists (e1 ++ e2). rewrite He2, He1, <- app_assoc. split; [reflexivity|].
    rewrite transportRequests_app, length_app.
    unfold QueueRuns.clicks in *. simpl in *.
    destruct e; simpl in *; lia.
Qed.

(** ** The cart *)

Section CartFacts.
Implicit Types (m : gmap Z Z) (st : CartContext.State).

Lemma cart_total_insert_None m k v :
  m !! k = None ->
  map_fold (fun _ count sum => sum + count) 0 (<[k := v]> m)
  = map_fold (fun _ count sum => sum + count) 0 m + v.
Proof.
  intros H. rewrite map_fold_insert_L; [reflexivity| |exact H].
  intros; lia.
Qed.

Lemma cart_total_delete m k :
  map_fold (fun _ count sum => sum + count) 0 (delete k m)
  = map_fold (fun _ count sum => sum + count) 0 m - default 0 (m !! k).
Proof.
  destruct (m !! k) as [v|] eqn:H; simpl.
  - rewrite (map_fold_delete_L _ _ k v m); [lia| |exact H]. intros; lia.
  - rewrite delete_id by exact H. lia.
Qed.

Lemma cart_total_insert m k v :
  map_fold (fun _ count sum => sum + count) 0 (<[k := v]> m)
  = map_fold (fun _ count sum => sum + count) 0 m - default 0 (m !! k) + v.
Proof.
  rewrite <- insert_delete_eq.
  rewrite cart_total_insert_None by apply lookup_delete_eq.
  now rewrite cart_total_delete.
Qed.

(** X12: [addToCart] answers [mismatch] exactly when the cart belongs to
    another shop, and then leaves the state as it is; it never answers
    [error]. *)
Theorem addToCart_mismatch (product : CartContext.ProductInCart) (q : Z) st :
  (fst (CartContext.addToCart product q st) = CartContext.mismatch <->
   exists shop, CartContext.currentShopId st = Some shop /\
                shop <> CartContext.shopId product) /\
  (fst (CartContext.addToCart product q st) = CartContext.mismatch ->
   snd (CartContext.addToCart product q st) = st) /\
  fst (CartContext.addToCart product q st) <> CartContext.error.
Proof.
  unfold CartContext.addToCart.
  destruct (CartContext.currentShopId st) as [shop|] eqn:Hs.
  - destruct (shop =? CartContext.shopId product) eqn:E; simpl.
    + apply Z.eqb_eq in E. repeat split; try discriminate.
      intros (shop' & [= <-] & Hne). contradiction.
    + apply Z.eqb_neq in E. repeat split; try discriminate; eauto.
  - simpl. repeat split; try discriminate. intros (shop & [=] & _).
Qed.

(** X13: the shop of the cart is known exactly when the cart holds a
    product: every call keeps it so, provided no negative quantity is
    removed. *)
Theorem cart_call_keeps_shopKnown (c : CartContext.Call) st :
  (forall productId q, c = CartContext.RemoveFromCart productId q -> 0 <= q) ->
  CartContext.shopKnown st -> CartContext.shopKnown (CartContext.call c st).
Proof.
  unfold CartContext.shopKnown. destruct st as [m shop name]. simpl.
  intros Hq Hinv.
  assert (Hsingle : forall k v, ({[k := v]} : gmap Z Z) <> ∅).
  { intros k v H. rewrite <- insert_empty in H. now apply insert_non_empty in H. }
  destruct c as [product q|product q|productId q|]; simpl.
  - unfold CartContext.addToCart. simpl.
    destruct shop as [shop|]; simpl.
    + destruct (shop =? CartContext.shopId product); simpl; [|exact Hinv].
      split; [discriminate|]. intros H. now apply insert_non_empty in H.
    + split; [discriminate|]. intros H. now apply Hsingle in H.
  - split; [discriminate|]. intros H. now apply Hsingle in H.
  - specialize (Hq productId q eq_refl).
    unfold CartContext.removeFromCart. simpl.
    destruct (Z.max 0 (default 0 (m !! productId) - q) =? 0) eqn:E.
    + destruct (decide (delete productId m = ∅)) as [He|Hne]; simpl; [tauto|].
      split; [|contradiction]. intros Hnone. apply Hinv in Hnone. subst m.
      now rewrite delete_empty in Hne.
    + simpl. apply Z.eqb_neq in E. split.
      * intros Hnone. apply Hinv in Hnone. subst m.
        rewrite lookup_empty in E. simpl in E. lia.
      * intros H. now apply insert_non_empty in H.
  - tauto.
Qed.

Lemma cart_call_keeps_shopKnown_witness :
  CartContext.shopKnown
    (CartContext.call (CartContext.RemoveFromCart 11 1)
       (CartContext.call
          (CartContext.AddToCart
             (CartContext.mkProductInCart 11 "Dosa" 100 "" "" true "" 4 "" 3 None) 1)
          CartContext.initial)).
Proof.
  apply cart_call_keeps_shopKnown; [intros ? ? [= _ <-]; lia|].
  apply cart_call_keeps_shopKnown; [discriminate|].
  split; reflexivity.
Defined.

(** Removing a negative quantity from an empty cart puts the product in
    the cart and leaves the shop unknown. *)
Lemma removeFromCart_negative_quantity :
  let st := CartContext.removeFromCart 11 (-2) CartContext.initial in
  CartContext.getCartItemQuantity st 11 = 2 /\
  CartContext.currentShopId st = None.
Proof. split; reflexivity. Qed.

End CartFacts.

Section CartQuantities.
Implicit Types (st : CartContext.State) (product : CartContext.ProductInCart).

(** X14: when [addToCart] answers [added] on a cart whose shop is known exactly
    when it holds a product, the quantity of the product grows by the
    quantity added, every other quantity is as before, and so the number
    of items in the cart grows by the quantity added. *)
Theorem addToCart_added_quantities product (q : Z) st :
  CartContext.shopKnown st ->
  fst (CartContext.addToCart product q st) = CartContext.added ->
  let st' := snd (CartContext.addToCart product q st) in
  CartContext.getCartItemQuantity st' (CartContext.id product)
    = CartContext.getCartItemQuantity st (CartContext.id product) + q /\
  (forall other, other <> CartContext.id product ->
     CartContext.getCartItemQuantity st' other
     = CartContext.getCartItemQuantity st other) /\
  CartContext.totalItemsInCart st' = CartContext.totalItemsInCart st + q /\
  CartContext.currentShopId st' = Some (CartContext.shopId product).
Proof.
  unfold CartContext.shopKnown, CartContext.addToCart,
    CartContext.getCartItemQuantity, CartContext.totalItemsInCart.
  destruct st as [m shop name]. simpl. intros Hinv.
  destruct shop as [shop|]; simpl.
  - destruct (shop =? CartContext.shopId product) eqn:E; simpl; [|discriminate].
    intros _. apply Z.eqb_eq in E. subst shop.
    rewrite lookup_insert_eq. simpl. split; [reflexivity|]. split; [|split].
    + intros other Hne. now rewrite lookup_insert_ne by congruence.
    + rewrite cart_total_insert. lia.
    + reflexivity.
  - intros _. assert (m = ∅) as -> by now apply Hinv.
    rewrite lookup_singleton_eq, !lookup_empty. simpl.
    split; [reflexivity|]. split; [|split].
    + intros other Hne. rewrite lookup_singleton_ne by congruence.
      now rewrite lookup_empty.
    + rewrite map_fold_singleton, map_fold_empty. reflexivity.
    + reflexivity.
Qed.

Lemma addToCart_added_quantities_witness :
  let dosa := CartContext.mkProductInCart 11 "Dosa" 100 "" "" true "" 4 "" 3 None in
  let st := snd (CartContext.addToCart dosa 2 CartContext.initial) in
  CartContext.getCartItemQuantity (snd (CartContext.addToCart dosa 3 st)) 11 = 2 + 3.
Proof.
  cbn zeta.
  refine (proj1 (addToCart_added_quantities
            (CartContext.mkProductInCart 11 "Dosa" 100 "" "" true "" 4 "" 3 None) 3
            (snd (CartContext.addToCart
                    (CartContext.mkProductInCart 11 "Dosa" 100 "" "" true "" 4 "" 3 None)
                    2 CartContext.initial)) _ _)).
  - split; [discriminate|]. intros H. vm_compute in H. discriminate.
  - reflexivity.
Defined.

(** X15: [removeFromCart] leaves the product with its quantity less the
    quantity removed, and with none when that is not positive; every
    other quantity is as before, and the number of items changes by the
    same amount. *)
Theorem removeFromCart_quantities (productId q : Z) st :
  let st' := CartContext.removeFromCart productId q st in
  CartContext.getCartItemQuantity st' productId
    = Z.max 0 (CartContext.getCartItemQuantity st productId - q) /\
  (forall other, other <> productId ->
     CartContext.getCartItemQuantity st' other
     = CartContext.getCartItemQuantity st other) /\
  CartContext.totalItemsInCart st'
    = CartContext.totalItemsInCart st
      - CartContext.getCartItemQuantity st productId
      + Z.max 0 (CartContext.getCartItemQuantity st productId - q) /\
  (Z.max 0 (CartContext.getCartItemQuantity st productId - q) = 0 ->
     CartContext.cart st' !! productId = None).
Proof.
  unfold CartContext.removeFromCart, CartContext.getCartItemQuantity,
    CartContext.totalItemsInCart.
  destruct st as [m shop name]. simpl.
  set (cur := default 0 (m !! productId)).
  destruct (Z.max 0 (cur - q) =? 0) eqn:E.
  - apply Z.eqb_eq in E. rewrite E.
    assert (Hcart : forall s n,
              CartContext.cart
                (if decide (delete productId m = ∅)
                 then CartContext.mkState (delete productId m) None None
                 else CartContext.mkState (delete productId m) s n)
              = delete productId m).
    { intros s n. now destruct (decide _). }
    rewrite !Hcart, lookup_delete_eq. simpl. split; [reflexivity|]. split; [|split].
    + intros other Hne. now rewrite lookup_delete_ne by congruence.
    + rewrite cart_total_delete. fold cur. lia.
    + reflexivity.
  - apply Z.eqb_neq in E. simpl. rewrite lookup_insert_eq. simpl.
    split; [reflexivity|]. split; [|split].
    + intros other Hne. now rewrite lookup_insert_ne by congruence.
    + rewrite cart_total_insert. fold cur. lia.
    + intros H. contradiction.
Qed.

(** X16: quantities stay positive under calls that add or remove a
    positive quantity. *)
Theorem cart_call_keeps_quantities_positive (c : CartContext.Call) st :
  CartContext.positiveCall c ->
  CartContext.quantitiesPositive st ->
  CartContext.quantitiesPositive (CartContext.call c st).
Proof.
  unfold CartContext.quantitiesPositive. destruct st as [m shop name]. simpl.
  intros Hc Hpos.
  assert (Hcur : forall k, 0 <= default 0 (m !! k)).
  { intros k. destruct (m !! k) as [v|] eqn:E; simpl; [|lia].
    apply Hpos in E. lia. }
  destruct c as [product q|product q|productId q|]; simpl in *.
  - unfold CartContext.addToCart. simpl.
    destruct shop as [shop|]; simpl.
    + destruct (shop =? CartContext.shopId product); simpl; [|exact Hpos].
      intros k v. destruct (decide (CartContext.id product = k)) as [->|Hne].
      * rewrite lookup_insert_eq. intros [= <-]. specialize (Hcur k). lia.
      * rewrite lookup_insert_ne by exact Hne. apply Hpos.
    + intros k v. rewrite lookup_singleton.
      case_decide; [intros [= <-]; lia|discriminate].
  - intros k v. rewrite lookup_singleton.
    case_decide; [intros [= <-]; lia|discriminate].
  - unfold CartContext.removeFromCart. simpl.
    destruct (Z.max 0 (default 0 (m !! productId) - q) =? 0) eqn:E.
    + assert (Hd : forall k v, delete productId m !! k = Some v -> 0 < v).
      { intros k v. destruct (decide (productId = k)) as [->|Hne].
        - now rewrite lookup_delete_eq.
        - rewrite lookup_delete_ne by exact Hne. apply Hpos. }
      destruct (decide (delete productId m = ∅)); simpl; exact Hd.
    + simpl. apply Z.eqb_neq in E. intros k v.
      destruct (decide (productId = k)) as [->|Hne].
      * rewrite lookup_insert_eq. intros [= <-]. lia.
      * rewrite lookup_insert_ne by exact Hne. apply Hpos.
  - intros k v. now rewrite lookup_empty.
Qed.

Lemma cart_call_keeps_quantities_positive_witness :
  CartContext.quantitiesPositive
    (CartContext.call
       (CartContext.AddToCart
          (CartContext.mkProductInCart 11 "Dosa" 100 "" "" true "" 4 "" 3 None) 2)
       CartContext.initial).
Proof.
  apply cart_call_keeps_quantities_positive.
  - simpl. lia.
  - intros k v H. vm_compute in H. discriminate.
Defined.
End CartQuantities.

(** X17: adding a positive quantity of a product and removing it again gives
    back the cart and its shop, on a cart with positive quantities whose
    shop is known exactly when it holds a product. *)
Theorem addToCart_then_removeFromCart
    (product : CartContext.ProductInCart) (q : Z) (st : CartContext.State) :
  CartContext.shopKnown st ->
  CartContext.quantitiesPositive st ->
  0 < q ->
  fst (CartContext.addToCart product q st) = CartContext.added ->
  let st' := CartContext.removeFromCart (CartContext.id product) q
               (snd (CartContext.addToCart product q st)) in
  CartContext.cart st' = CartContext.cart st /\
  CartContext.currentShopId st' = CartContext.currentShopId st.
Proof.
  unfold CartContext.shopKnown, CartContext.quantitiesPositive,
    CartContext.addToCart, CartContext.removeFromCart.
  destruct st as [m shop name]. simpl. intros Hinv Hpos Hq.
  set (k := CartContext.id product).
  destruct shop as [shop|]; simpl.
  - destruct (shop =? CartContext.shopId product) eqn:E; simpl; [|discriminate].
    intros _. rewrite lookup_insert_eq. simpl.
    destruct (m !! k) as [v|] eqn:Hk; simpl.
    + pose proof (Hpos k v Hk) as Hv.
      replace (Z.max 0 (v + q - q)) with v by lia.
      destruct (v =? 0) eqn:Ev; [apply Z.eqb_eq in Ev; lia|]. simpl.
      rewrite insert_insert_eq, insert_id by exact Hk. auto.
    + replace (Z.max 0 (0 + q - q)) with 0 by lia. simpl.
      rewrite delete_insert_eq, delete_id by exact Hk.
      destruct (decide (m = ∅)) as [He|Hne]; simpl.
      * apply Hinv in He. discriminate.
      * auto.
  - intros _. assert (m = ∅) as -> by now apply Hinv.
    rewrite lookup_singleton_eq. simpl.
    replace (Z.max 0 (q - q)) with 0 by lia. simpl.
    rewrite delete_singleton_eq.
    destruct (decide ((∅ : gmap Z Z) = ∅)); [auto|contradiction].
Qed.

Lemma addToCart_then_removeFromCart_witness :
  let dosa := CartContext.mkProductInCart 11 "Dosa" 100 "" "" true "" 4 "" 3 None in
  CartContext.cart
    (CartContext.removeFromCart 11 2
       (snd (CartContext.addToCart dosa 2 CartContext.initial)))
  = ∅.
Proof.
  cbn zeta.
  refine (proj1 (addToCart_then_removeFromCart
            (CartContext.mkProductInCart 11 "Dosa" 100 "" "" true "" 4 "" 3 None) 2
            CartContext.initial _ _ _ _)).
  - split; reflexivity.
  - intros k v H. vm_compute in H. discriminate.
  - lia.
  - reflexivity.
Defined.

(** ** The customer tracker *)

(** X18: an event on the tracker always replaces the order held.  For a status
    of the timeline the progress bar is set to a quarter per step reached
    and one toast announces the step; a REJECTED order leaves the
    progress bar where it was and shows no toast.  The snapshot fetched at
    first sets the same progress, without a toast. *)
Theorem tracker_progress_follows_status
    (u : OrderTrackingPage.OrderData) (st : OrderTrackingPage.State) :
  let st' := OrderTrackingPage.onMessage u st in
  OrderTrackingPage.order st' = Some u /\
  OrderTrackingPage.progress st'
    = match OrderTrackingPage.status u with
      | PLACED => 25
      | PREPARING => 50
      | READY_FOR_PICKUP => 75
      | COMPLETED => 100
      | REJECTED => OrderTrackingPage.progress st
      end /\
  length (OrderTrackingPage.toasts st')
    = (length (OrderTrackingPage.toasts st)
       + match OrderTrackingPage.status u with REJECTED => 0 | _ => 1 end)%nat /\
  OrderTrackingPage.progress (Tracker.onFetched u st) = OrderTrackingPage.progress st' /\
  OrderTrackingPage.order (Tracker.onFetched u st) = Some u /\
  OrderTrackingPage.toasts (Tracker.onFetched u st) = OrderTrackingPage.toasts st.
Proof.
  unfold OrderTrackingPage.onMessage, Tracker.onFetched.
  destruct (OrderTrackingPage.status u); simpl;
    rewrite ?length_app; simpl; repeat split; lia.
Qed.

(** X19: the timeline has one row per step.  The rows up to the step of the
    order's status are marked completed and that step alone is marked
    current; for a REJECTED order, or when no order is held, no row is
    marked at all. *)
Theorem tracker_timeline_marks (order : option OrderTrackingPage.OrderData) :
  length (Tracker.timeline order) = 4%nat /\
  (forall (i : nat) (step : Tracker.Step),
     Tracker.timeline order !! i = Some step ->
     Tracker.isCompleted step = (Z.of_nat i <=? Tracker.getCurrentStatusIndex order) /\
     Tracker.isCurrent step = (Z.of_nat i =? Tracker.getCurrentStatusIndex order)) /\
  Tracker.getCurrentStatusIndex order
    = match order with
      | None => -1
      | Some o =>
          match OrderTrackingPage.status o with
          | PLACED => 0
          | PREPARING => 1
          | READY_FOR_PICKUP => 2
          | COMPLETED => 3
          | REJECTED => -1
          end
      end /\
  ((order = None \/ exists o, order = Some o /\ OrderTrackingPage.status o = REJECTED) ->
   Forall (fun step => Tracker.isCompleted step = false /\
                       Tracker.isCurrent step = false)
          (Tracker.timeline order)).
Proof.
  assert (Hidx : Tracker.getCurrentStatusIndex order
    = match order with
      | None => -1
      | Some o =>
          match OrderTrackingPage.status o with
          | PLACED => 0
          | PREPARING => 1
          | READY_FOR_PICKUP => 2
          | COMPLETED => 3
          | REJECTED => -1
          end
      end).
  { destruct order as [o|]; [|reflexivity].
    unfold Tracker.getCurrentStatusIndex.
    now destruct (OrderTrackingPage.status o). }
  split; [reflexivity|]. split; [|split; [exact Hidx|]].
  - intros i step. unfold Tracker.timeline.
    destruct i as [|[|[|[|i]]]]; simpl; intros [= <-]; simpl; auto.
  - intros Hrej.
    assert (Hneg : Tracker.getCurrentStatusIndex order = -1).
    { rewrite Hidx. destruct Hrej as [->|(o & -> & ->)]; reflexivity. }
    unfold Tracker.timeline. simpl. rewrite Hneg.
    repeat constructor.
Qed.

(** X20: the remaining time shown is never negative; it is missing only when
    no order is held or the order carries no pickup time.  It is the
    difference to the pickup time in minutes rounded to the nearest
    minute: zero as soon as less than half a minute is left or the time
    has passed, and otherwise within half a minute of the difference. *)
Theorem tracker_time_remaining
    (getTime : string -> Z) (currentTime : Z) (o : OrderTrackingPage.OrderData) :
  OrderTrackingPage.estimatedPickupTime o <> "" ->
  let left := getTime (OrderTrackingPage.estimatedPickupTime o) - currentTime in
  exists minutes,
    Tracker.getEstimatedTimeRemaining getTime currentTime (Some o) = Some minutes /\
    0 <= minutes /\
    (minutes = 0 <-> left < 30000) /\
    (0 < minutes -> 60000 * minutes - 30000 <= left < 60000 * minutes + 30000).
Proof.
  intros Hne. cbn zeta. unfold Tracker.getEstimatedTimeRemaining.
  apply String.eqb_neq in Hne. rewrite Hne.
  set (left := getTime (OrderTrackingPage.estimatedPickupTime o) - currentTime).
  replace (1000 * 60) with 60000 by reflexivity.
  pose proof (Z.div_mod (left + 30000) 60000 ltac:(lia)) as Hdm.
  pose proof (Z.mod_pos_bound (left + 30000) 60000 ltac:(lia)) as Hb.
  eexists. split; [reflexivity|].
  destruct (0 <? (left + 30000) / 60000) eqn:E.
  - apply Z.ltb_lt in E. repeat split; lia.
  - apply Z.ltb_ge in E. repeat split; lia.
Qed.

(** Twelve minutes and twenty seconds before the pickup time the tracker
    shows 12 minutes. *)
Lemma tracker_time_remaining_witness :
  exists minutes,
    Tracker.getEstimatedTimeRemaining Example.getTime (1750933500000 - 740000)
      (Some Example.tracked) = Some minutes /\
    0 <= minutes /\
    (minutes = 0 <->
     Example.getTime (OrderTrackingPage.estimatedPickupTime Example.tracked)
       - (1750933500000 - 740000) < 30000) /\
    (0 < minutes ->
     60000 * minutes - 30000
       <= Example.getTime (OrderTrackingPage.estimatedPickupTime Example.tracked)
          - (1750933500000 - 740000)
       < 60000 * minutes + 30000).
Proof.
  apply (tracker_time_remaining Example.getTime (1750933500000 - 740000) Example.tracked).
  discriminate.
Defined.

(** ** Checkout: when an order is posted *)

(** X21: [handlePlaceOrder] posts an order exactly when the profile is
    complete (identifier, name, phone and email all present and not
    empty), the cart has an item and the shop identifier is present and
    not zero.  An incomplete profile is reported first, whatever the
    cart. *)
Theorem handlePlaceOrder_posts_iff
    (user : option CheckoutPage.User) (checkoutItems : list CheckoutPage.CheckoutItem)
    (currentShopId : option Z) (paymentMethod : string) (renderTime now : Z) :
  let complete :=
    exists u uid uname phone mail,
      user = Some u /\
      CheckoutPage.truthyString (CheckoutPage.userId u) = Some uid /\
      CheckoutPage.truthyString (CheckoutPage.userName u) = Some uname /\
      CheckoutPage.truthyString (CheckoutPage.mobileNumber u) = Some phone /\
      CheckoutPage.truthyString (CheckoutPage.email u) = Some mail in
  let outcome :=
    CheckoutPage.handlePlaceOrder user checkoutItems currentShopId paymentMethod
      renderTime now in
  ((exists payload, outcome = CheckoutPage.Posted payload) <->
   complete /\ checkoutItems <> [] /\
   exists shop, currentShopId = Some shop /\ shop <> 0) /\
  (outcome = CheckoutPage.MissingUserInformation <-> ~ complete) /\
  (outcome = CheckoutPage.EmptyCart <->
   complete /\ (checkoutItems = [] \/ currentShopId = None \/ currentShopId = Some 0)).
Proof.
  cbn zeta. unfold CheckoutPage.handlePlaceOrder, CheckoutPage.truthyNumber.
  destruct user as [u|];
    [destruct (CheckoutPage.truthyString (CheckoutPage.userId u)) eqn:E1,
              (CheckoutPage.truthyString (CheckoutPage.userName u)) eqn:E2,
              (CheckoutPage.truthyString (CheckoutPage.mobileNumber u)) eqn:E3,
              (CheckoutPage.truthyString (CheckoutPage.email u)) eqn:E4|];
    destruct checkoutItems as [|item rest];
    (destruct currentShopId as [shop|];
       [destruct (shop =? 0) eqn:E0;
          [apply Z.eqb_eq in E0|apply Z.eqb_neq in E0]|]);
    (split; [|split]); split; intros H; try discriminate H;
    repeat match goal with
      | H : _ /\ _ |- _ => destruct H
      | H : exists _, _ |- _ => destruct H
      | H : Some _ = Some _ |- _ => injection H as H; subst
      | H : ex _ |- _ => destruct H
      end;
    try congruence;
    try (exfalso; match goal with H : ~ _ |- _ => apply H end;
         exists u; eauto 10);
    try (intros (u0 & ? & ? & ? & ? & Hu & ? & ? & ? & ?);
         injection Hu as <-; congruence);
    try (intros (u0 & ? & ? & ? & ? & Hu & _); discriminate Hu);
    try (repeat split; eauto 10; discriminate);
    try (split; [eauto 10|subst; auto]);
    try (match goal with H : _ \/ _ |- _ => destruct H as [H|[H|H]] end;
         congruence).
Qed.

(** ** The vendor queue: wrappers over the facts used above *)

(** X1: [sortOrders] only rearranges: the sorted list holds exactly the
    orders of the list, each as often as before, and as many. *)
Theorem sortOrders_only_rearranges (l : list Order) :
  Permutation (OrderQueue.sortOrders l) l /\
  length (OrderQueue.sortOrders l) = length l /\
  (forall o, In o (OrderQueue.sortOrders l) <-> In o l).
Proof.
  split; [apply sortOrders_Permutation|]. split.
  - apply Permutation_length, sortOrders_Permutation.
  - intros o. apply sortOrders_In.
Qed.

Lemma filter_Permutation_bool {A : Type} (p : A -> bool) (l1 l2 : list A) :
  Permutation l1 l2 -> Permutation (List.filter p l1) (List.filter p l2).
Proof.
  induction 1 as [|x l1 l2 Hp IH|x y l1|l1 l2 l3 Hp1 IH1 Hp2 IH2]; simpl.
  - constructor.
  - destruct (p x); [apply perm_skip, IH|exact IH].
  - destruct (p y), (p x); try reflexivity. apply perm_swap.
  - now transitivity (List.filter p l2).
Qed.

(** X3: sorting moves no order from one section to another: each of the
    four sections of the sorted list holds the orders of that section of
    the list, each as often as before. *)
Theorem sortOrders_keeps_sections (l : list Order) :
  Permutation (OrderQueue.pendingOrders (OrderQueue.sortOrders l))
              (OrderQueue.pendingOrders l) /\
  Permutation (OrderQueue.preparingOrders (OrderQueue.sortOrders l))
              (OrderQueue.preparingOrders l) /\
  Permutation (OrderQueue.readyOrders (OrderQueue.sortOrders l))
              (OrderQueue.readyOrders l) /\
  Permutation (OrderQueue.historicalOrders (OrderQueue.sortOrders l))
              (OrderQueue.historicalOrders l).
Proof.
  repeat split; apply filter_Permutation_bool, sortOrders_Permutation.
Qed.

(** X6: every order of the list is shown on exactly one card, in exactly
    one of the four sections, and its card carries the actions of its
    status and no others. *)
Theorem queue_shows_each_order_once (orders : list Order) :
  Permutation (map fst (OrderQueue.render orders)) orders /\
  Permutation
    (OrderQueue.pendingOrders orders ++ OrderQueue.preparingOrders orders ++
     OrderQueue.readyOrders orders ++ OrderQueue.historicalOrders orders) orders /\
  (forall order calls,
     In (order, calls) (OrderQueue.render orders) ->
     forall c, In c calls ->
       currentOrderStatus c = status order /\
       legal_edge (status order) (newStatus c) = true).
Proof.
  split; [|split; [apply sections_partition|]].
  - unfold OrderQueue.render. rewrite !map_app, !map_map. simpl.
    rewrite !map_id. apply sections_partition.
  - intros order calls Hin c Hc. apply render_In in Hin as [_ ->].
    destruct (status order) eqn:Hs; simpl in Hc;
      repeat (destruct Hc as [<-|Hc]; [simpl; rewrite Hs; auto|]);
      destruct Hc.
Qed.

(** X7: an event for an order the list does not hold adds that order and
    nothing else; an event for an order it holds keeps the number of
    orders and their identifiers. *)
Theorem onMessage_adds_only_unknown_orders (u : Order) (prev : list Order) :
  (~ In (id u) (map id prev) ->
     OrderQueue.onMessage u prev = OrderQueue.sortOrders (u :: prev) /\
     Permutation (OrderQueue.onMessage u prev) (u :: prev)) /\
  (In (id u) (map id prev) ->
     length (OrderQueue.onMessage u prev) = length prev /\
     Permutation (map id (OrderQueue.onMessage u prev)) (map id prev)).
Proof. exact (onMessage_known_unknown u prev). Qed.

(** X9: the optimistic update keeps the number of orders and their
    identifiers; each order of the result is an order of the list with at
    most its status replaced, and it is replaced only for the public
    identifier passed. *)
Theorem optimisticUpdate_changes_only_status
    (cid : string) (ns : Status) (prev : list Order) :
  length (OrderQueue.optimisticUpdate cid ns prev) = length prev /\
  Permutation (map id (OrderQueue.optimisticUpdate cid ns prev)) (map id prev) /\
  (forall o, In o (OrderQueue.optimisticUpdate cid ns prev) ->
     exists o0, In o0 prev /\ o = with_status o0 (status o) /\
       (orderId o0 = cid /\ status o = ns \/ orderId o0 <> cid /\ o = o0)) /\
  (forall o0, In o0 prev -> orderId o0 <> cid ->
     In o0 (OrderQueue.optimisticUpdate cid ns prev)).
Proof. exact (optimisticUpdate_facts cid ns prev). Qed.

(** X23: a call of the handler with an identifier that no order of the
    list carries leaves the list on screen as it is, and the request is
    sent all the same: the PUT for a current status PLACED, the publish
    otherwise on a connected client. *)
Theorem handler_unknown_identifier (c : StatusChange) (st : OrderQueue.State) :
  OrderQueue.shownSorted st ->
  (forall o, In o (OrderQueue.orders st) -> orderId o <> orderCustomId c) ->
  currentOrderStatus c = PLACED \/ OrderQueue.stompConnected st = true ->
  OrderQueue.orders (OrderQueue.handleStatusChange c st) = OrderQueue.orders st /\
  length (OrderQueue.transportRequests
            (OrderQueue.effects (OrderQueue.handleStatusChange c st)))
  = S (length (OrderQueue.transportRequests (OrderQueue.effects st))).
Proof.
  intros [Hsorted _] Hno Hready.
  destruct (handler_no_check_orders c st Hready) as [Ho _].
  split.
  - rewrite Ho, optimisticUpdate_no_match by exact Hno. exact Hsorted.
  - destruct (Status_eqb (currentOrderStatus c) PLACED) eqn:E.
    + apply Status_eqb_eq in E. rewrite handleStatusChange_put by assumption.
      cbn. rewrite transportRequests_app, length_app. simpl. lia.
    + assert (currentOrderStatus c <> PLACED).
      { intros H. rewrite H in E. discriminate. }
      destruct Hready as [H'|Hc]; [contradiction|].
      rewrite handleStatusChange_publish by assumption.
      cbn. rewrite transportRequests_app, length_app. simpl. lia.
Qed.

Lemma handler_unknown_identifier_witness :
  OrderQueue.orders
    (OrderQueue.handleStatusChange (mkStatusChange "665f1c01" PLACED REJECTED)
       (Sample.queue [Sample.older; Sample.cooking]))
  = OrderQueue.orders (Sample.queue [Sample.older; Sample.cooking]).
Proof.
  refine (proj1 (handler_unknown_identifier
            (mkStatusChange "665f1c01" PLACED REJECTED)
            (Sample.queue [Sample.older; Sample.cooking]) _ _ _)).
  - apply queue_shownSorted.
  - intros o [<-|[<-|[]]]; discriminate.
  - left. reflexivity.
Defined.

(** X24: the card of the queue and the stand-alone card component offer
    the same transitions for an order, in the same order; the stand-alone
    card passes [order.id] in every call, the card of the queue passes
    [order.orderId] except for the reject button. *)
Theorem cards_offer_same_transitions (orders : list Order) (order : Order)
    (calls : list StatusChange) :
  In (order, calls) (OrderQueue.render orders) ->
  map (fun c => (currentOrderStatus c, newStatus c)) calls
    = map (fun a => (currentOrderStatus (snd a), newStatus (snd a)))
          (OrderCard.actions order) /\
  Forall (fun a => orderCustomId (snd a) = id order) (OrderCard.actions order) /\
  Forall (fun c => orderCustomId c = if Status_eqb (newStatus c) REJECTED
                                     then id order else orderId order) calls.
Proof.
  intros Hin. apply render_In in Hin as [_ ->]. unfold OrderCard.actions.
  destruct (status order) eqn:Hs; simpl; rewrite ?Hs;
    (split; [reflexivity|split]);
    repeat (apply List.Forall_cons; [reflexivity|]); apply List.Forall_nil.
Qed.

Lemma cards_offer_same_transitions_witness :
  map (fun c => (currentOrderStatus c, newStatus c))
      (OrderQueue.pendingActions Sample.older)
  = map (fun a => (currentOrderStatus (snd a), newStatus (snd a)))
        (OrderCard.actions Sample.older).
Proof.
  refine (proj1 (cards_offer_same_transitions [Sample.older] Sample.older
                   (OrderQueue.pendingActions Sample.older) _)).
  simpl. auto.
Defined.

(** ** The cart: starting over *)

(** X25: [clearCartAndAddProduct] leaves a cart of exactly the product
    given, whatever the cart was: its quantity is the quantity given,
    every other quantity is zero, and afterwards [addToCart] accepts the
    products of that shop and answers [mismatch] for those of any other.
    After [clearCart] the cart is empty and a product of any shop is
    accepted. *)
Theorem cart_starting_over
    (product other : CartContext.ProductInCart) (q q' : Z) (st : CartContext.State) :
  let st1 := CartContext.clearCartAndAddProduct product q st in
  CartContext.shopKnown st1 /\
  CartContext.getCartItemQuantity st1 (CartContext.id product) = q /\
  (forall k, k <> CartContext.id product -> CartContext.getCartItemQuantity st1 k = 0) /\
  CartContext.totalItemsInCart st1 = q /\
  (fst (CartContext.addToCart other q' st1) = CartContext.added <->
   CartContext.shopId other = CartContext.shopId product) /\
  CartContext.clearCart st = CartContext.initial /\
  CartContext.totalItemsInCart (CartContext.clearCart st) = 0 /\
  fst (CartContext.addToCart other q' (CartContext.clearCart st)) = CartContext.added.
Proof.
  cbn zeta. unfold CartContext.clearCartAndAddProduct, CartContext.shopKnown,
    CartContext.getCartItemQuantity, CartContext.totalItemsInCart,
    CartContext.addToCart. simpl.
  split.
  { split; [discriminate|]. intros H. rewrite <- insert_empty in H.
    now apply insert_non_empty in H. }
  split; [now rewrite lookup_singleton_eq|]. split.
  { intros k Hk. now rewrite lookup_singleton_ne by congruence. }
  split; [now rewrite map_fold_singleton|]. split.
  { destruct (CartContext.shopId product =? CartContext.shopId other) eqn:E; simpl.
    - apply Z.eqb_eq in E. split; auto.
    - apply Z.eqb_neq in E. split; [discriminate|]. intros H. congruence. }
  repeat split.
Qed.

(** X26: on a cart with positive quantities the number of items is never
    negative and is zero exactly when the cart is empty. *)
Theorem cart_total_zero_iff_empty (st : CartContext.State) :
  CartContext.quantitiesPositive st ->
  0 <= CartContext.totalItemsInCart st /\
  (CartContext.totalItemsInCart st = 0 <-> CartContext.cart st = ∅).
Proof.
  unfold CartContext.quantitiesPositive, CartContext.totalItemsInCart.
  destruct st as [m shop name]. simpl. clear shop name.
  induction m as [|k v m Hk IH] using map_ind; intros Hpos.
  - rewrite map_fold_empty. split; [lia|tauto].
  - rewrite cart_total_insert_None by exact Hk.
    assert (Hv : 0 < v) by (apply (Hpos k); apply lookup_insert_eq).
    destruct IH as [Hge _].
    { intros k' v' Hk'. apply (Hpos k').
      rewrite lookup_insert_ne; [exact Hk'|]. intros ->. congruence. }
    split; [lia|]. split; [lia|].
    intros H. now apply insert_non_empty in H.
Qed.

Lemma cart_total_zero_iff_empty_witness :
  0 <= CartContext.totalItemsInCart
         (snd (CartContext.addToCart Example.dosa 2 CartContext.initial)).
Proof.
  refine (proj1 (cart_total_zero_iff_empty
            (snd (CartContext.addToCart Example.dosa 2 CartContext.initial)) _)).
  intros k v H. simpl in H.
  apply lookup_singleton_Some in H as [_ <-]. lia.
Defined.
